(** * Statement-based authorization engine (betandbeat/authorization)

    A shallow embedding of the decision algorithm of the Go package
    [authorization]: the domain types of [types.go], the Decision
    Evaluator ([evaluator.Evaluate] and its helpers), the in-memory
    reference store, the in-memory principal resolver and the
    [ExpandingEvaluator], followed by the properties of the specification
    that concern them.

    Conventions.
    - A Go string is a [string]; the named string types [Principal],
      [ActionID], [Resource] and [Effect] are [string] as well.
    - A Go result pair [(T, error)] is a pair [T * option error]; the error
      value is represented by its message, and [None] is the nil error.
    - A Go interface with one method is the type of that method.
    - The third-party libraries (doublestar, expr, and the quoting done by
      the [%q] verb of fmt) are parameters of the development, collected in
      the class [GoLibs]; every general theorem holds for all of them. *)

From Stdlib Require Import ZArith String Ascii List Bool Lia.
From stdpp Require Import base option list gmap strings.
Import ListNotations.

Local Open Scope string_scope.
Local Open Scope list_scope.

(** ** Domain model ([types.go]) *)

Definition error := string.
Definition Principal := string.
Definition ActionID := string.
Definition Resource := string.
Definition Effect := string.

Definition EffectAllow : Effect := "allow".
Definition EffectDeny : Effect := "deny".

Module Condition.
Record t := mk { Name : string; Expression : string }.
End Condition.

(** The anonymous struct behind [Context.Request]; [time.Time] is kept as
    an integer time stamp. *)
Module ContextRequest.
Record t := mk { At : Z; IP : string; UserAgent : string }.
End ContextRequest.

Module Context.
Record t := mk { Request : ContextRequest.t }.
End Context.

Module Request.
Record t := mk {
  Principal : Principal;
  Action : ActionID;
  Resource : Resource;
  Context : Context.t
}.
End Request.

Module Statement.
Record t := mk {
  ID : string;
  Active : bool;
  Name : string;
  Description : string;
  Effect : Effect;
  Principals : list Principal;
  Actions : list ActionID;
  Resources : list Resource;
  Conditions : list Condition.t;
  CreatedAt : Z;
  UpdatedAt : Z;
  CreatedBy : string;
  UpdatedBy : string
}.
End Statement.

(** [Decider] is a [*string] in Go: [None] is the nil pointer. *)
Module Response.
Record t := mk {
  Effect : Effect;
  Message : string;
  Decider : option string
}.
End Response.

(** The zero value [Response{}]. *)
Definition Response_zero : Response.t := Response.mk "" "" None.

(** The three interfaces of the package, each with a single method. *)
Definition Storage := Principal -> list Statement.t * option error.
Definition Evaluator := Request.t -> Response.t * option error.
Definition PrincipalResolver := Principal -> list Principal * option error.

(** ** Third-party libraries *)

(** A value of Go type [any] as returned by [expr.Run]: the code only asks
    whether it is a [bool]. *)
Inductive any := AnyBool (b : bool) | AnyOther.

(** - [doublestar_Match pattern name] is [doublestar.Match], with both of
      its results (the code reads the boolean even when it drops the error);
    - [expr_Compile] and [expr_Run] are [expr.Compile] and [expr.Run], where
      [inl err] stands for a non-nil error;
    - [strconv_Quote] is the quoting applied by the verb [%q]. *)
Class GoLibs := {
  doublestar_Match : string -> string -> bool * option error;
  expr_Program : Type;
  expr_Compile : string -> error + expr_Program;
  expr_Run : expr_Program -> Request.t -> error + any;
  strconv_Quote : string -> string
}.

Section Engine.
Context `{GoLibs}.

(** ** Condition evaluation ([types.go]) *)

Definition Condition_Evaluate (c : Condition.t) (req : Request.t)
  : bool * option error :=
  match expr_Compile (Condition.Expression c) with
  | inl err => (false, Some err)
  | inr program =>
      match expr_Run program req with
      | inl err => (false, Some err)
      | inr (AnyBool result) => (result, None)
      | inr AnyOther => (false, None)
      end
  end.

(** ** Decision Evaluator *)

Definition enhancePattern (pattern : string) : string :=
  if String.eqb pattern "*" then "**" else pattern.

Fixpoint actionMatches (actions : list ActionID) (requestedAction : ActionID)
  : bool :=
  match actions with
  | [] => false
  | a :: rest =>
      if fst (doublestar_Match (enhancePattern a) requestedAction) then true
      else actionMatches rest requestedAction
  end.

Fixpoint resourceMatches (resources : list Resource)
  (requestedResource : Resource) : bool :=
  match resources with
  | [] => false
  | r :: rest =>
      if fst (doublestar_Match (enhancePattern r) requestedResource) then true
      else resourceMatches rest requestedResource
  end.

Fixpoint principalMatches (principals : list Principal)
  (requestedPrincipal : Principal) : bool :=
  match principals with
  | [] => false
  | p :: rest =>
      if fst (doublestar_Match (enhancePattern p) requestedPrincipal) then true
      else principalMatches rest requestedPrincipal
  end.

Fixpoint allConditionsMet (conditions : list Condition.t) (req : Request.t)
  : bool * option error :=
  match conditions with
  | [] => (true, None)
  | c :: rest =>
      match Condition_Evaluate c req with
      | (_, Some err) =>
          (false,
           Some ("failed to evaluate condition "
                 +:+ strconv_Quote (Condition.Name c) +:+ ": " +:+ err))
      | (met, None) =>
          if negb met then (false, None) else allConditionsMet rest req
      end
  end.

Definition statementMatches (stmt : Statement.t) (req : Request.t)
  : bool * option error :=
  if negb (principalMatches (Statement.Principals stmt) (Request.Principal req))
  then (false, None)
  else if negb (actionMatches (Statement.Actions stmt) (Request.Action req))
  then (false, None)
  else if negb (resourceMatches (Statement.Resources stmt)
                  (Request.Resource req))
  then (false, None)
  else
    match allConditionsMet (Statement.Conditions stmt) req with
    | (_, Some err) => (false, Some err)
    | (conditionsMet, None) => (conditionsMet, None)
    end.

Fixpoint filterStatementsByEffect (statements : list Statement.t)
  (effect : Effect) : list Statement.t :=
  match statements with
  | [] => []
  | s :: rest =>
      if String.eqb (Statement.Effect s) effect
      then s :: filterStatementsByEffect rest effect
      else filterStatementsByEffect rest effect
  end.

(** The responses built by [Evaluate]. *)
Definition noApplicableMessage : string :=
  "no applicable statements found, access denied by default".
Definition noMatchingMessage : string :=
  "no matching statement found, access denied by default".

Definition denyErrorResponse (stmt : Statement.t) (err : error) : Response.t :=
  Response.mk EffectDeny
    ("failed to evaluate condition for deny statement "
     +:+ strconv_Quote (Statement.ID stmt) +:+ ": " +:+ err)
    (Some (Statement.ID stmt)).

Definition denyResponse (stmt : Statement.t) : Response.t :=
  Response.mk EffectDeny
    ("denied by statement " +:+ strconv_Quote (Statement.ID stmt))
    (Some (Statement.ID stmt)).

Definition allowResponse (stmt : Statement.t) : Response.t :=
  Response.mk EffectAllow
    ("allowed by statement " +:+ strconv_Quote (Statement.ID stmt))
    (Some (Statement.ID stmt)).

(** The first loop of [Evaluate], over the Deny statements: [Some r] when
    the loop returns [r], [None] when it runs to its end. *)
Fixpoint Evaluate_denyLoop (denyStatements : list Statement.t)
  (req : Request.t) : option Response.t :=
  match denyStatements with
  | [] => None
  | stmt :: rest =>
      match statementMatches stmt req with
      | (_, Some err) => Some (denyErrorResponse stmt err)
      | (true, None) => Some (denyResponse stmt)
      | (false, None) => Evaluate_denyLoop rest req
      end
  end.

(** The second loop, over the Allow statements. On a condition error the
    source prints a line on standard output and continues; the line is not
    part of the returned values and is left out. *)
Fixpoint Evaluate_allowLoop (allowStatements : list Statement.t)
  (req : Request.t) : option Response.t :=
  match allowStatements with
  | [] => None
  | stmt :: rest =>
      match statementMatches stmt req with
      | (_, Some err) => Evaluate_allowLoop rest req
      | (true, None) => Some (allowResponse stmt)
      | (false, None) => Evaluate_allowLoop rest req
      end
  end.

(** The body of [Evaluate] once storage has returned [statements]. *)
Definition Evaluate_statements (statements : list Statement.t)
  (req : Request.t) : Response.t :=
  if Nat.eqb (length statements) 0
  then Response.mk EffectDeny noApplicableMessage None
  else
    let denyStatements := filterStatementsByEffect statements EffectDeny in
    let allowStatements := filterStatementsByEffect statements EffectAllow in
    match Evaluate_denyLoop denyStatements req with
    | Some r => r
    | None =>
        match Evaluate_allowLoop allowStatements req with
        | Some r => r
        | None => Response.mk EffectDeny noMatchingMessage None
        end
    end.

Record evaluator := NewEvaluator { storage : Storage }.

Definition Evaluate (e : evaluator) : Evaluator := fun req =>
  match storage e (Request.Principal req) with
  | (_, Some err) =>
      (Response_zero, Some ("failed to list statements: " +:+ err))
  | (statements, None) => (Evaluate_statements statements req, None)
  end.

(** ** In-memory reference store ([storage_inmem.go]) *)

(** The mutex of the Go struct orders concurrent accesses and has no
    counterpart in this sequential model. *)
Record inMemoryStorage := { statements : gmap string Statement.t }.

Definition NewInMemoryStorage : inMemoryStorage := {| statements := ∅ |}.

Definition SaveStatement (s : inMemoryStorage) (statement : Statement.t)
  : inMemoryStorage * option error :=
  ({| statements := <[Statement.ID statement := statement]> (statements s) |},
   None).

Definition DeleteStatement (s : inMemoryStorage) (id : string)
  : inMemoryStorage * option error :=
  ({| statements := delete id (statements s) |}, None).

Definition GetStatement (s : inMemoryStorage) (id : string)
  : option Statement.t * option error :=
  (statements s !! id, None).

(** Go leaves the order in which [range] visits a map unspecified, and it
    may change from one loop to the next. [rangeOrder s order] says that
    [order] is one of the orders in which a [range] over [s.statements] can
    visit the stored statements. *)
Definition rangeOrder (s : inMemoryStorage) (order : list Statement.t) : Prop :=
  order ≡ₚ (map_to_list (statements s)).*2.

(** The inner loop of [ListStatementsByPrincipal], over [stmt.Principals]:
    [inl err] when the function returns [nil, err], [inr true] when the
    statement is appended (and the loop left by [break]), [inr false] when
    the loop runs to its end. *)
Fixpoint List_principalsLoop (principals : list Principal)
  (principal : Principal) : error + bool :=
  match principals with
  | [] => inr false
  | p :: rest =>
      match doublestar_Match p principal with
      | (_, Some err) => inl err
      | (true, None) => inr true
      | (false, None) => List_principalsLoop rest principal
      end
  end.

(** The outer loop, which visits the statements in [order] and accumulates
    [result]. *)
Fixpoint List_statementsLoop (order : list Statement.t) (principal : Principal)
  (result : list Statement.t) : list Statement.t * option error :=
  match order with
  | [] => (result, None)
  | stmt :: rest =>
      match List_principalsLoop (Statement.Principals stmt) principal with
      | inl err => ([], Some err)
      | inr true => List_statementsLoop rest principal (result ++ [stmt])
      | inr false => List_statementsLoop rest principal result
      end
  end.

(** [ListStatementsByPrincipal] of the in-memory store, for an execution
    whose [range] visits the map in [order]. *)
Definition ListStatementsByPrincipal (order : list Statement.t) : Storage :=
  fun principal => List_statementsLoop order principal [].

(** ** In-memory principal resolver ([principal_resolver_inmem.go]) *)

Record inMemoryPrincipalResolver :=
  { roleMappings : gmap string (list Principal) }.

Definition NewInMemoryPrincipalResolver : inMemoryPrincipalResolver :=
  {| roleMappings := ∅ |}.

Definition AddRoleMapping (r : inMemoryPrincipalResolver)
  (userPrincipal : Principal) (roles : list Principal)
  : inMemoryPrincipalResolver :=
  {| roleMappings := <[userPrincipal := roles]> (roleMappings r) |}.

Definition ResolvePrincipals (r : inMemoryPrincipalResolver)
  : PrincipalResolver := fun principal =>
  let principals := [principal] in
  let principals :=
    if String.prefix "users/" principal then
      match roleMappings r !! principal with
      | Some roles => principals ++ roles
      | None => principals
      end
    else principals in
  (principals, None).

(** ** Expanding Evaluator *)

Record ExpandingEvaluator := NewExpandingEvaluator {
  baseEvaluator : Evaluator;
  resolver : PrincipalResolver
}.

(** The local variables of [ExpandingEvaluator.Evaluate] that the loop
    updates. The two pointers are taken to the loop variable, which is a
    fresh variable in every iteration (the test suite relies on this, and
    it uses [testing.T.Context], hence a Go version with per-iteration loop
    variables): a non-nil pointer is represented by the principal it points
    to. *)
Record expansion := {
  responses : list Response.t;
  allowingPrincipal : option Principal;
  denyingPrincipal : option Principal
}.

Definition isNil {A : Type} (p : option A) : bool :=
  match p with None => true | Some _ => false end.

(** One iteration of the loop after a successful call of the wrapped
    evaluator. *)
Definition Expanding_record (st : expansion) (principal : Principal)
  (response : Response.t) : expansion :=
  let responses := responses st ++ [response] in
  let denyingPrincipal :=
    if String.eqb (Response.Effect response) EffectDeny
       && isNil (denyingPrincipal st)
       && negb (isNil (Response.Decider response))
    then Some principal else denyingPrincipal st in
  let allowingPrincipal :=
    if String.eqb (Response.Effect response) EffectAllow
       && isNil (allowingPrincipal st)
       && negb (isNil (Response.Decider response))
    then Some principal else allowingPrincipal st in
  {| responses := responses;
     allowingPrincipal := allowingPrincipal;
     denyingPrincipal := denyingPrincipal |}.

Definition evaluationErrorResponse (principal : Principal) (err : error)
  : Response.t :=
  Response.mk EffectDeny
    ("evaluation error for principal " +:+ principal +:+ ": " +:+ err) None.

(** [expandedReq := req; expandedReq.Principal = principal]. *)
Definition withPrincipal (req : Request.t) (principal : Principal)
  : Request.t :=
  Request.mk principal (Request.Action req) (Request.Resource req)
    (Request.Context req).

(** The loop over the resolved principals. The first component lists the
    requests passed to the wrapped evaluator, in order (a record of the
    calls, which the source does not keep); the second is [inl r] when the
    loop returns [r] and [inr st] when it runs to its end. *)
Fixpoint Expanding_loop (e : ExpandingEvaluator) (req : Request.t)
  (principals : list Principal) (st : expansion)
  : list Request.t * (Response.t + expansion) :=
  match principals with
  | [] => ([], inr st)
  | principal :: rest =>
      let expandedReq := withPrincipal req principal in
      match baseEvaluator e expandedReq with
      | (_, Some err) =>
          ([expandedReq], inl (evaluationErrorResponse principal err))
      | (response, None) =>
          let '(calls, out) :=
            Expanding_loop e req rest (Expanding_record st principal response) in
          (expandedReq :: calls, out)
      end
  end.

Definition noExpandedMatchMessage : string :=
  "no matching statements found for any expanded principal, access denied by default".

(** The decision taken after the loop. *)
Definition Expanding_decide (st : expansion) : Response.t :=
  match denyingPrincipal st with
  | Some p =>
      Response.mk EffectDeny ("access denied for principal " +:+ p)
        (Some ("principal_expansion:" +:+ p))
  | None =>
      match allowingPrincipal st with
      | Some p =>
          Response.mk EffectAllow ("access allowed for principal " +:+ p)
            (Some ("principal_expansion:" +:+ p))
      | None => Response.mk EffectDeny noExpandedMatchMessage None
      end
  end.

Definition expansion_init : expansion :=
  {| responses := []; allowingPrincipal := None; denyingPrincipal := None |}.

(** [ExpandingEvaluator.Evaluate] together with the calls it makes to the
    wrapped evaluator. *)
Definition Expanding_run (e : ExpandingEvaluator) (req : Request.t)
  : list Request.t * (Response.t * option error) :=
  match resolver e (Request.Principal req) with
  | (_, Some err) =>
      ([], (Response.mk EffectDeny ("failed to resolve principals: " +:+ err)
              None, None))
  | (principals, None) =>
      match Expanding_loop e req principals expansion_init with
      | (calls, inl r) => (calls, (r, None))
      | (calls, inr st) => (calls, (Expanding_decide st, None))
      end
  end.

Definition Expanding_Evaluate (e : ExpandingEvaluator) : Evaluator :=
  fun req => snd (Expanding_run e req).

Definition Expanding_calls (e : ExpandingEvaluator) (req : Request.t)
  : list Request.t :=
  fst (Expanding_run e req).

End Engine.

(** ** Notions used to state the properties *)

Section Notions.
Context `{GoLibs}.

(** The statement matches the request on its three pattern lists. *)
Definition structurallyMatches (stmt : Statement.t) (req : Request.t) : bool :=
  principalMatches (Statement.Principals stmt) (Request.Principal req)
  && actionMatches (Statement.Actions stmt) (Request.Action req)
  && resourceMatches (Statement.Resources stmt) (Request.Resource req).

(** The statement matches structurally and all its conditions evaluate
    to true. *)
Definition fullyMatches (stmt : Statement.t) (req : Request.t) : Prop :=
  structurallyMatches stmt req = true
  /\ allConditionsMet (Statement.Conditions stmt) req = (true, None).

(** The evaluation of the conditions of the statement fails. *)
Definition conditionsFail (stmt : Statement.t) (req : Request.t) : Prop :=
  is_Some (snd (allConditionsMet (Statement.Conditions stmt) req)).

(** The evaluation of condition [c] fails with error [err], at compilation
    or at run time. *)
Definition conditionError (c : Condition.t) (req : Request.t) (err : error)
  : Prop :=
  expr_Compile (Condition.Expression c) = inl err
  \/ exists program,
       expr_Compile (Condition.Expression c) = inr program
       /\ expr_Run program req = inl err.

(** A Deny statement decides a request when it matches structurally and
    its conditions are all true or cannot be evaluated; an Allow statement
    when it matches structurally and its conditions are all true. *)
Definition denyDecidesb (req : Request.t) (stmt : Statement.t) : bool :=
  String.eqb (Statement.Effect stmt) EffectDeny
  && match statementMatches stmt req with
     | (false, None) => false
     | _ => true
     end.

Definition allowDecidesb (req : Request.t) (stmt : Statement.t) : bool :=
  String.eqb (Statement.Effect stmt) EffectAllow
  && match statementMatches stmt req with
     | (true, None) => true
     | _ => false
     end.

Definition denyDecides (stmt : Statement.t) (req : Request.t) : Prop :=
  Statement.Effect stmt = EffectDeny
  /\ structurallyMatches stmt req = true
  /\ (allConditionsMet (Statement.Conditions stmt) req = (true, None)
      \/ conditionsFail stmt req).

Definition allowDecides (stmt : Statement.t) (req : Request.t) : Prop :=
  Statement.Effect stmt = EffectAllow /\ fullyMatches stmt req.

Definition decides (stmt : Statement.t) (req : Request.t) : Prop :=
  denyDecides stmt req \/ allowDecides stmt req.

(** What the Deny loop returns when it stops at [stmt]. *)
Definition denyOutcome (req : Request.t) (stmt : Statement.t) : Response.t :=
  match statementMatches stmt req with
  | (_, Some err) => denyErrorResponse stmt err
  | _ => denyResponse stmt
  end.

(** An explicit outcome of the wrapped evaluator: no error and a Decider. *)
Definition explicitDenyb (r : Response.t * option error) : bool :=
  isNil (snd r)
  && String.eqb (Response.Effect (fst r)) EffectDeny
  && negb (isNil (Response.Decider (fst r))).

Definition explicitAllowb (r : Response.t * option error) : bool :=
  isNil (snd r)
  && String.eqb (Response.Effect (fst r)) EffectAllow
  && negb (isNil (Response.Decider (fst r))).

(** The three responses of the Expanding Evaluator after a complete loop. *)
Definition expansionDenied (p : Principal) : Response.t :=
  Response.mk EffectDeny ("access denied for principal " +:+ p)
    (Some ("principal_expansion:" +:+ p)).

Definition expansionAllowed (p : Principal) : Response.t :=
  Response.mk EffectAllow ("access allowed for principal " +:+ p)
    (Some ("principal_expansion:" +:+ p)).

Definition expansionDefault : Response.t :=
  Response.mk EffectDeny noExpandedMatchMessage None.

(** The stored statement is kept by [ListStatementsByPrincipal]. *)
Definition keptb (principal : Principal) (stmt : Statement.t) : bool :=
  match List_principalsLoop (Statement.Principals stmt) principal with
  | inr true => true
  | _ => false
  end.

Definition failsb (principal : Principal) (stmt : Statement.t) : bool :=
  match List_principalsLoop (Statement.Principals stmt) principal with
  | inl _ => true
  | inr _ => false
  end.

(** The first of two pointers that is not nil: [p] unless it is nil. *)
Definition orElse {A : Type} (p q : option A) : option A :=
  match p with Some _ => p | None => q end.

(** The local variables of [ExpandingEvaluator.Evaluate] after a loop over
    [ps] in which every call of the wrapped evaluator succeeded. *)
Definition expansion_after (e : ExpandingEvaluator) (req : Request.t)
  (ps : list Principal) (st : expansion) : expansion :=
  let outcome p := baseEvaluator e (withPrincipal req p) in
  {| responses := responses st ++ map (fun p => fst (outcome p)) ps;
     allowingPrincipal :=
       orElse (allowingPrincipal st)
         (find (fun p => explicitAllowb (outcome p)) ps);
     denyingPrincipal :=
       orElse (denyingPrincipal st)
         (find (fun p => explicitDenyb (outcome p)) ps) |}.

End Notions.

(** ** A reference instance of the libraries

    Closed examples need concrete libraries. The instance below is only
    used to evaluate the code on concrete inputs; the general theorems do
    not depend on it. *)
Module Model.

Inductive token :=
| Star
| DoubleStar
| AnyChar
| Class (negated : bool) (ranges : list (ascii * ascii))
| Lit (c : ascii).

Inductive lexState :=
| Top
| InClass (negated : bool) (ranges : list (ascii * ascii)).

(** Modelled from the spec: the pattern syntax of doublestar, a library
    that is not part of the repository. Section 4.1 of the specification
    gives four constructs: a single star, a double star, a question mark
    and a bracketed character class (optionally negated, made of single
    characters and ranges); a backslash takes the next character
    literally. [None] is a malformed pattern. *)
Fixpoint lex (st : lexState) (p : list ascii) {struct p}
  : option (list token) :=
  match p with
  | [] => match st with Top => Some [] | InClass _ _ => None end
  | c :: rest =>
      match st with
      | Top =>
          if Ascii.eqb c "*" then
            match rest with
            | c' :: rest' =>
                if Ascii.eqb c' "*" then cons DoubleStar <$> lex Top rest'
                else cons Star <$> lex Top rest
            | [] => Some [Star]
            end
          else if Ascii.eqb c "?" then cons AnyChar <$> lex Top rest
          else if Ascii.eqb c "[" then
            match rest with
            | c' :: rest' =>
                if Ascii.eqb c' "^" || Ascii.eqb c' "!"
                then lex (InClass true []) rest'
                else lex (InClass false []) rest
            | [] => None
            end
          else if Ascii.eqb c "\" then
            match rest with
            | c' :: rest' => cons (Lit c') <$> lex Top rest'
            | [] => None
            end
          else cons (Lit c) <$> lex Top rest
      | InClass neg rs =>
          if Ascii.eqb c "]" then
            match rs with
            | [] => None
            | _ :: _ => cons (Class neg (rev rs)) <$> lex Top rest
            end
          else
            match rest with
            | d :: hi :: rest' =>
                if Ascii.eqb d "-" && negb (Ascii.eqb hi "]")
                then lex (InClass neg ((c, hi) :: rs)) rest'
                else lex (InClass neg ((c, c) :: rs)) rest
            | _ => lex (InClass neg ((c, c) :: rs)) rest
            end
      end
  end.

Definition inRanges (rs : list (ascii * ascii)) (c : ascii) : bool :=
  existsb (fun r => (nat_of_ascii (fst r) <=? nat_of_ascii c)%nat
                    && (nat_of_ascii c <=? nat_of_ascii (snd r))%nat) rs.

(** Modelled from the spec: the matching of doublestar (section 4.1). A
    single star matches any run of characters that does not cross a slash,
    a double star any run of characters, a question mark exactly one
    character, a class one character of the class. *)
Fixpoint glob (ts : list token) : list ascii -> bool :=
  match ts with
  | [] => fun s => match s with [] => true | _ :: _ => false end
  | Star :: ts' =>
      fix star (s : list ascii) : bool :=
        glob ts' s
        || match s with
           | c :: s' => negb (Ascii.eqb c "/") && star s'
           | [] => false
           end
  | DoubleStar :: ts' =>
      fix dstar (s : list ascii) : bool :=
        glob ts' s
        || match s with
           | _ :: s' => dstar s'
           | [] => false
           end
  | AnyChar :: ts' =>
      fun s => match s with _ :: s' => glob ts' s' | [] => false end
  | Class neg rs :: ts' =>
      fun s =>
        match s with
        | c :: s' => xorb neg (inRanges rs c) && glob ts' s'
        | [] => false
        end
  | Lit c0 :: ts' =>
      fun s =>
        match s with
        | c :: s' => Ascii.eqb c c0 && glob ts' s'
        | [] => false
        end
  end.

Definition ErrBadPattern : error := "syntax error in pattern".

(** Modelled from the spec: [doublestar.Match], missing from the sources;
    a malformed pattern gives an error (section 4.1). *)
Definition Match (pattern name : string) : bool * option error :=
  match lex Top (list_ascii_of_string pattern) with
  | None => (false, Some ErrBadPattern)
  | Some ts => (glob ts (list_ascii_of_string name), None)
  end.

(** A minimal expression engine: the literals [true] and [false] evaluate
    to themselves, [1] to a value that is not a boolean, and every other
    text fails to compile (as does the text [invalid syntax] of the test
    suite). *)
Inductive program := Const (v : any).

Definition Compile (expression : string) : error + program :=
  if String.eqb expression "true" then inr (Const (AnyBool true))
  else if String.eqb expression "false" then inr (Const (AnyBool false))
  else if String.eqb expression "1" then inr (Const AnyOther)
  else inl "unexpected token".

Definition Run (p : program) (req : Request.t) : error + any :=
  match p with Const v => inr v end.

(** Quoting as [%q] does it, for ASCII text: the text between double
    quotes, with double quotes, backslashes and control characters
    escaped. *)
Definition dquote : ascii := "034"%char.

Definition hexDigit (n : nat) : ascii :=
  match n with
  | 0 => "0" | 1 => "1" | 2 => "2" | 3 => "3" | 4 => "4" | 5 => "5"
  | 6 => "6" | 7 => "7" | 8 => "8" | 9 => "9" | 10 => "a" | 11 => "b"
  | 12 => "c" | 13 => "d" | 14 => "e" | _ => "f"
  end%char.

Definition quoteChar (c : ascii) : string :=
  let n := nat_of_ascii c in
  if Ascii.eqb c dquote then String "\" (String dquote "")
  else if Ascii.eqb c "\" then "\\"
  else if Nat.eqb n 7 then "\a"
  else if Nat.eqb n 8 then "\b"
  else if Nat.eqb n 9 then "\t"
  else if Nat.eqb n 10 then "\n"
  else if Nat.eqb n 11 then "\v"
  else if Nat.eqb n 12 then "\f"
  else if Nat.eqb n 13 then "\r"
  else if (n <? 32)%nat || Nat.eqb n 127
  then String "\" (String "x" (String (hexDigit (n / 16))
                                  (String (hexDigit (n mod 16)) "")))
  else String c "".

Fixpoint quoteBody (s : string) : string :=
  match s with
  | EmptyString => ""
  | String c rest => quoteChar c +:+ quoteBody rest
  end.

Definition Quote (s : string) : string :=
  String dquote (quoteBody s +:+ String dquote "").

Definition libs : GoLibs := {|
  doublestar_Match := Match;
  expr_Program := program;
  expr_Compile := Compile;
  expr_Run := Run;
  strconv_Quote := Quote
|}.

(** A statement as the tests write it: the fields that a Go struct literal
    leaves out are zero values. *)
Definition stmt (id : string) (effect : Effect) (principals : list Principal)
  (actions : list ActionID) (resources : list Resource)
  (conditions : list Condition.t) : Statement.t :=
  Statement.mk id false "" "" effect principals actions resources conditions
    0 0 "" "".

Definition request (principal : Principal) (action : ActionID)
  (resource : Resource) : Request.t :=
  Request.mk principal action resource
    (Context.mk (ContextRequest.mk 0 "" "")).

End Model.


(** ** Concrete inputs

    The statements and requests of the test suite, and a few more, over the
    reference instance of the libraries. *)
Module Scenario.

#[local] Existing Instance Model.libs.

Definition user1 : Principal := "user:1".
Definition readAction : ActionID := "read".
Definition doc1 : Resource := "document:1".

Definition req1 : Request.t := Model.request user1 readAction doc1.

(** The malformed condition of the tests on condition errors. *)
Definition badCond : Condition.t := Condition.mk "BadCond" "invalid syntax".

Definition allowRead : Statement.t :=
  Model.stmt "allow-read" EffectAllow [user1] [readAction] [doc1] [].
Definition denyRead : Statement.t :=
  Model.stmt "deny-read" EffectDeny [user1] [readAction] [doc1] [].
Definition denyReadAgain : Statement.t :=
  Model.stmt "deny-read-again" EffectDeny [user1] [readAction] [doc1] [].
Definition denyBadCond : Statement.t :=
  Model.stmt "deny-bad-cond" EffectDeny [user1] [readAction] [doc1] [badCond].
Definition allowBadCond : Statement.t :=
  Model.stmt "allow-bad-cond" EffectAllow [user1] [readAction] [doc1] [badCond].

(** A storage that answers every principal with the same statements. *)
Definition answer (stmts : list Statement.t) : Storage :=
  fun _ => (stmts, None).

(** The statements, the role mapping and the request of
    [TestExpandingEvaluator]. *)
Definition allowModerator : Statement.t :=
  Model.stmt "allow-moderator-download" EffectAllow ["roles/moderator"]
    ["invoice.download"] ["invoices/*"] [].
Definition denyAnalyst : Statement.t :=
  Model.stmt "deny-analyst-specific" EffectDeny ["roles/analyst"]
    ["invoice.download"] ["invoices/238423684"] [].

Definition invoiceStore : inMemoryStorage :=
  fst (SaveStatement (fst (SaveStatement NewInMemoryStorage allowModerator))
         denyAnalyst).

Definition markResolver : PrincipalResolver :=
  ResolvePrincipals
    (AddRoleMapping NewInMemoryPrincipalResolver "users/mark"
       ["roles/moderator"; "roles/analyst"]).

Definition reqInvoice : Request.t :=
  Model.request "users/mark" "invoice.download" "invoices/238423684".

Definition invoiceEvaluator : ExpandingEvaluator :=
  NewExpandingEvaluator
    (Evaluate (NewEvaluator (ListStatementsByPrincipal [allowModerator; denyAnalyst])))
    markResolver.

(** A storage that is down for one principal, in the manner of the
    [mockStorage] of the tests, and a user with three roles. *)
Definition downForModerator : Storage := fun principal =>
  if String.eqb principal "roles/moderator"
  then ([], Some "database is down")
  else ListStatementsByPrincipal [allowModerator; denyAnalyst] principal.

Definition threeRoles : PrincipalResolver :=
  ResolvePrincipals
    (AddRoleMapping NewInMemoryPrincipalResolver "users/mark"
       ["roles/analyst"; "roles/moderator"; "roles/admin"]).

Definition abortingEvaluator : ExpandingEvaluator :=
  NewExpandingEvaluator (Evaluate (NewEvaluator downForModerator)) threeRoles.

(** A resolver whose directory cannot be reached. *)
Definition unreachableResolver : PrincipalResolver :=
  fun _ => ([], Some "directory unavailable").

(** Two roles that are both denied, the second by a statement whose
    condition cannot be evaluated. *)
Definition denyAuditor : Statement.t :=
  Model.stmt "deny-auditor" EffectDeny ["roles/auditor"]
    ["invoice.download"] ["invoices/*"] [].
Definition denyAnalystBadCond : Statement.t :=
  Model.stmt "deny-analyst-bad-cond" EffectDeny ["roles/analyst"]
    ["invoice.download"] ["invoices/*"] [badCond].

Definition auditorFirst : PrincipalResolver :=
  ResolvePrincipals
    (AddRoleMapping NewInMemoryPrincipalResolver "users/mark"
       ["roles/auditor"; "roles/analyst"]).

Definition twoDenials : Storage :=
  ListStatementsByPrincipal [denyAuditor; denyAnalystBadCond].

Definition moderatorAndBadAnalyst : Storage :=
  ListStatementsByPrincipal [allowModerator; denyAnalystBadCond].

(** A store with two Deny statements for the same request. *)
Definition twoDenyStore : inMemoryStorage :=
  fst (SaveStatement (fst (SaveStatement NewInMemoryStorage denyRead))
         denyReadAgain).

(** A statement for every principal, written with a bare star, and a
    principal with two path segments. *)
Definition denyAll : Statement.t :=
  Model.stmt "deny-all" EffectDeny ["*"] ["*"] ["*"] [].

Definition denyAllStore : inMemoryStorage :=
  fst (SaveStatement NewInMemoryStorage denyAll).

End Scenario.

(** ** The rest of the package

    The methods of [Response], the builders of [Request], the action
    catalog and the remote authorizer. *)

(** [Response.Allowed] and [Response.Denied]. *)
Definition Response_Allowed (r : Response.t) : bool :=
  String.eqb (Response.Effect r) EffectAllow.

Definition Response_Denied (r : Response.t) : bool :=
  String.eqb (Response.Effect r) EffectDeny.


Definition WithUserPrincipal (r : Request.t) (userId : string) : Request.t :=
  Request.mk ("users/" +:+ userId) (Request.Action r) (Request.Resource r)
    (Request.Context r).

Definition WithRolePrincipal (r : Request.t) (roleId : string) : Request.t :=
  Request.mk ("roles/" +:+ roleId) (Request.Action r) (Request.Resource r)
    (Request.Context r).

Definition WithServicePrincipal (r : Request.t) (serviceId : string)
  : Request.t :=
  Request.mk ("services/" +:+ serviceId) (Request.Action r)
    (Request.Resource r) (Request.Context r).




(** The catalog entry [Action] and its constructor. A panic is [inl] of the
    value passed to [panic]. *)
Module Action.
Record t := mk { ID : ActionID; Name : string; Description : string }.
End Action.

Definition NewAction (id : ActionID) (name description : string)
  : string + Action.t :=
  if String.eqb id "" then inl "action ID cannot be empty"
  else
    let name := if String.eqb name "" then id else name in
    inr (Action.mk id name description).

Definition Action_String (a : Action.t) : string := Action.ID a.

(** The package [iam_actions] in its two versions: the constants of
    [iam_action.go], where an action is its identifier, and the variables
    of the later version, which are built by [NewAction] when the package
    is initialised. *)
Module iam_actions_v1.
Definition SIGNUP : string := "iam:SignUp".
Definition SIGNIN : string := "iam:SignIn".
Definition DELETE_USER : string := "iam:DeleteUser".
Definition UPDATE_USER : string := "iam:UpdateUser".
Definition GET_USER : string := "iam:GetUser".
Definition SEARCH_USERS : string := "iam:SearchUsers".
Definition All : list string :=
  [SIGNUP; SIGNIN; DELETE_USER; UPDATE_USER; GET_USER; SEARCH_USERS].
End iam_actions_v1.

(** [AllActions] of the package [actions]. *)
Definition AllActions_v1 : list string := [] ++ iam_actions_v1.All.

Module iam_actions.
Definition SIGNUP : string + Action.t :=
  NewAction "iam:SignUp" "Sign Up" "Allows a user to sign up for an account".
Definition SIGNIN : string + Action.t :=
  NewAction "iam:SignIn" "Sign In" "Allows a user to sign in to their account".
Definition DELETE_USER : string + Action.t :=
  NewAction "iam:DeleteUser" "Delete User"
    "Allows an admin to delete a user account".
Definition UPDATE_USER : string + Action.t :=
  NewAction "iam:UpdateUser" "Update User"
    "Allows an admin to update a user account".
Definition GET_USER : string + Action.t :=
  NewAction "iam:GetUser" "Get User"
    "Allows an admin to retrieve a user account".
Definition SEARCH_USERS : string + Action.t :=
  NewAction "iam:SearchUsers" "Search Users"
    "Allows an admin to search for user accounts".

(** The variables in the order of their initialisation; the first panic,
    if any, is the panic of the initialisation. *)
Fixpoint initialised (vars : list (string + Action.t))
  : string + list Action.t :=
  match vars with
  | [] => inr []
  | inl p :: _ => inl p
  | inr a :: rest =>
      match initialised rest with
      | inl p => inl p
      | inr l => inr (a :: l)
      end
  end.

Definition All : string + list Action.t :=
  initialised [SIGNUP; SIGNIN; DELETE_USER; UPDATE_USER; GET_USER; SEARCH_USERS].
End iam_actions.

(** ** Remote authorizer *)

Module HttpResponse.
Record t := mk { StatusCode : Z; Status : string; Body : string }.
End HttpResponse.

(** What [Authorize] calls outside the package: the JSON encoder and
    decoders, the construction of the HTTP request, the setting of a header
    and the HTTP client. [inl err] stands for a non-nil error. The context
    argument only travels to the HTTP request and is left out, as are the
    closing of the response body and the line printed for an error body. *)
Class RemoteWorld := {
  json_Marshal : Request.t -> error + string;
  httpRequest : Type;
  http_NewRequest : string -> string -> string -> error + httpRequest;
  Header_Set : httpRequest -> string -> string -> httpRequest;
  client_Do : httpRequest -> error + HttpResponse.t;
  json_Decode_RawMessage : string -> error + string;
  json_Decode_Response : string -> error + Response.t
}.

Definition StatusOK : Z := 200.

Record remoteAuthorizer := NewBetandbeatRemoteAuthorizer {
  endpoint : string;
  bearerTokenFn : unit -> string * option error
}.

Definition Authorize `{RemoteWorld} (r : remoteAuthorizer) (req : Request.t)
  : Response.t * option error :=
  match bearerTokenFn r tt with
  | (_, Some err) => (Response_zero, Some err)
  | (token, None) =>
  match json_Marshal req with
  | inl err =>
      (Response.mk EffectDeny
         ("failed to marshal authorization request: " +:+ err) None,
       Some err)
  | inr body =>
  match http_NewRequest "POST" (endpoint r) body with
  | inl err =>
      (Response.mk EffectDeny
         ("failed to create authorization request: " +:+ err) None,
       Some err)
  | inr httpReq =>
  let httpReq := Header_Set httpReq "Authorization" ("Bearer " +:+ token) in
  match client_Do httpReq with
  | inl err =>
      (Response.mk EffectDeny
         ("failed to make authorization request: " +:+ err) None,
       Some err)
  | inr resp =>
      if negb (Z.eqb (HttpResponse.StatusCode resp) StatusOK) then
        match json_Decode_RawMessage (HttpResponse.Body resp) with
        | inl err =>
            (Response.mk EffectDeny
               ("failed to decode error response: " +:+ err) None,
             Some ("authorization failed: " +:+ HttpResponse.Status resp))
        | inr _ =>
            (Response.mk EffectDeny
               ("authorization failed with status "
                +:+ HttpResponse.Status resp) None,
             Some ("authorization failed with status "
                   +:+ HttpResponse.Status resp))
        end
      else
        match json_Decode_Response (HttpResponse.Body resp) with
        | inl err =>
            (Response.mk EffectDeny
               ("failed to decode authorization response: " +:+ err) None,
             Some err)
        | inr response => (response, None)
        end
  end end end end.

(** ** More notions *)

(** Every stored statement is kept under its own ID. *)
Definition wellKeyed (s : inMemoryStorage) : Prop :=
  forall id stmt, statements s !! id = Some stmt -> Statement.ID stmt = id.

(** The operations that change the in-memory store, and a store after a
    sequence of them. *)
Inductive storeOp :=
| OpSave (statement : Statement.t)
| OpDelete (id : string).

Definition applyOp (s : inMemoryStorage) (op : storeOp) : inMemoryStorage :=
  match op with
  | OpSave statement => fst (SaveStatement s statement)
  | OpDelete id => fst (DeleteStatement s id)
  end.

Definition applyOps (ops : list storeOp) : inMemoryStorage :=
  fold_left applyOp ops NewInMemoryStorage.

(** ** More concrete inputs *)

(** A small world for the remote authorizer: one endpoint answers, with
    status 200 and an Allow for the right token and with status 401
    otherwise; the other endpoints cannot be reached. *)
Module RemoteModel.

Record request := {
  url : string;
  payload : string;
  headers : list (string * string)
}.

Definition NewRequest (method url body : string) : error + request :=
  if String.eqb url "://auth" then inl "missing protocol scheme"
  else inr {| url := url; payload := body; headers := [] |}.

Definition SetHeader (r : request) (key value : string) : request :=
  {| url := url r; payload := payload r;
     headers := (key, value)
                :: List.filter (fun kv => negb (String.eqb (fst kv) key))
                     (headers r) |}.

Definition header (r : request) (key : string) : option string :=
  snd <$> List.find (fun kv => String.eqb (fst kv) key) (headers r).

Definition Do (r : request) : error + HttpResponse.t :=
  if String.eqb (url r) "https://auth.example/authorize" then
    match header r "Authorization" with
    | Some "Bearer secret" => inr (HttpResponse.mk 200 "200 OK" "allow")
    | _ => inr (HttpResponse.mk 401 "401 Unauthorized" "{}")
    end
  else inl "connection refused".

Definition Marshal (req : Request.t) : error + string :=
  inr (Request.Principal req +:+ " " +:+ Request.Action req +:+ " "
       +:+ Request.Resource req).

Definition DecodeRaw (body : string) : error + string :=
  if String.eqb body "" then inl "EOF" else inr body.

Definition DecodeResponse (body : string) : error + Response.t :=
  if String.eqb body "allow"
  then inr (Response.mk EffectAllow "allowed by the remote engine" (Some "S1"))
  else inl "invalid character".

Definition world : RemoteWorld := {|
  json_Marshal := Marshal;
  httpRequest := request;
  http_NewRequest := NewRequest;
  Header_Set := SetHeader;
  client_Do := Do;
  json_Decode_RawMessage := DecodeRaw;
  json_Decode_Response := DecodeResponse
|}.

Definition unreachable : remoteAuthorizer :=
  NewBetandbeatRemoteAuthorizer "https://auth.example/down"
    (fun _ => ("secret", None)).

End RemoteModel.

Module More.

#[local] Existing Instance Model.libs.

(** A statement whose first principal pattern is malformed, and its store. *)
Definition malformedFirst : Statement.t :=
  Model.stmt "allow-malformed" EffectAllow ["["; "user:*"]
    ["read"] ["document:1"] [].

Definition malformedStore : inMemoryStorage :=
  fst (SaveStatement NewInMemoryStorage malformedFirst).

(** A Deny statement without actions, whose condition cannot be
    evaluated. *)
Definition denyNoActions : Statement.t :=
  Model.stmt "deny-no-actions" EffectDeny ["user:1"] [] ["document:1"]
    [Scenario.badCond].

(** A Deny statement whose first condition is not a boolean and whose
    second cannot be evaluated. *)
Definition notBool : Condition.t := Condition.mk "NotBool" "1".

Definition denyNotBool : Statement.t :=
  Model.stmt "deny-not-bool" EffectDeny ["user:1"] ["read"] ["document:1"]
    [notBool; Scenario.badCond].

(** A statement whose effect is written with a capital letter. *)
Definition capitalAllow : Statement.t :=
  Model.stmt "allow-capital" "Allow" ["user:1"] ["read"] ["document:1"] [].

(** The request of [TestExpandingEvaluator] made for the role of the
    analysts, and the base evaluator of that test. *)
Definition reqAnalyst : Request.t :=
  Model.request "roles/analyst" "invoice.download" "invoices/238423684".

Definition invoiceBase : Evaluator :=
  Evaluate (NewEvaluator
              (ListStatementsByPrincipal
                 [Scenario.denyAnalyst; Scenario.allowModerator])).

Definition markMapping : inMemoryPrincipalResolver :=
  AddRoleMapping NewInMemoryPrincipalResolver "users/mark"
    ["roles/moderator"; "roles/analyst"].

End More.

(** * Properties *)

(** ** First element found in a list *)

Section Find.
Context {A : Type} (f : A -> bool).

Lemma find_none_iff (l : list A) :
  find f l = None <-> forall y, y ∈ l -> f y = false.
Proof.
  induction l as [|a l IH]; simpl.
  - split; [intros _ y Hy; inversion Hy | done].
  - destruct (f a) eqn:Ha.
    + split; [done | intros Hall].
      rewrite Hall in Ha; [done | left].
    + rewrite IH. split.
      * intros Hall y Hy. apply elem_of_cons in Hy as [-> | Hy]; auto.
      * intros Hall y Hy. apply Hall. by right.
Qed.

Lemma find_is_Some_iff (l : list A) :
  is_Some (find f l) <-> exists y, y ∈ l /\ f y = true.
Proof.
  split.
  - intros [x Hx]. exists x. apply find_some in Hx as [Hin Hf].
    split; [by apply list_elem_of_In | done].
  - intros (y & Hy & Hf). destruct (find f l) eqn:E; [done |].
    rewrite find_none_iff in E. rewrite (E y Hy) in Hf. done.
Qed.

Lemma find_first (l : list A) (x : A) :
  find f l = Some x <->
  exists pre post,
    l = pre ++ x :: post /\ f x = true /\ forall y, y ∈ pre -> f y = false.
Proof.
  split.
  - revert x. induction l as [|a l IH]; intros x; simpl; [done |].
    destruct (f a) eqn:Ha.
    + intros [= <-]. exists [], l. repeat split; [done |].
      intros y Hy. inversion Hy.
    + intros Hx. destruct (IH x Hx) as (pre & post & -> & Hfx & Hpre).
      exists (a :: pre), post. repeat split; [done |].
      intros y Hy. apply elem_of_cons in Hy as [-> | Hy]; auto.
  - intros (pre & post & -> & Hfx & Hpre).
    induction pre as [|a pre IH]; simpl.
    + by rewrite Hfx.
    + rewrite (Hpre a); [| left]. apply IH. intros y Hy. apply Hpre. by right.
Qed.

Lemma find_is_Some_perm (l1 l2 : list A) :
  l1 ≡ₚ l2 -> is_Some (find f l1) <-> is_Some (find f l2).
Proof.
  intros Hp. rewrite !find_is_Some_iff.
  split; intros (y & Hy & Hf); exists y; split; try done.
  - by rewrite <- Hp.
  - by rewrite Hp.
Qed.

End Find.

(** ** The Decision Evaluator as a search for the first deciding statement *)

(** Closes a goal in which one of two searches succeeds and the other
    fails although they succeed together. *)
Ltac absurd_is_Some :=
  match goal with
  | Hx : is_Some (Some _) <-> is_Some None |- _ =>
      exfalso; apply (is_Some_None (proj1 Hx (ex_intro _ _ eq_refl)))
  | Hx : is_Some None <-> is_Some (Some _) |- _ =>
      exfalso; apply (is_Some_None (proj2 Hx (ex_intro _ _ eq_refl)))
  end.

Section Facts.
Context `{GoLibs}.

Lemma allConditionsMet_error (cs : list Condition.t) (req : Request.t)
  (b : bool) (err : error) :
  allConditionsMet cs req = (b, Some err) -> b = false.
Proof.
  induction cs as [|c cs IH]; simpl; [done |].
  destruct (Condition_Evaluate c req) as [met [e|]].
  - by intros [= <- _].
  - destruct met; simpl; [apply IH | done].
Qed.

Lemma statementMatches_unfold (stmt : Statement.t) (req : Request.t) :
  statementMatches stmt req =
  if structurallyMatches stmt req then
    match allConditionsMet (Statement.Conditions stmt) req with
    | (_, Some err) => (false, Some err)
    | (conditionsMet, None) => (conditionsMet, None)
    end
  else (false, None).
Proof.
  unfold statementMatches, structurallyMatches.
  destruct (principalMatches _ _); simpl; [| done].
  destruct (actionMatches _ _); simpl; [| done].
  by destruct (resourceMatches _ _).
Qed.

Lemma denyDecidesb_spec (req : Request.t) (stmt : Statement.t) :
  denyDecidesb req stmt = true <-> denyDecides stmt req.
Proof.
  unfold denyDecidesb, denyDecides, conditionsFail.
  rewrite andb_true_iff, String.eqb_eq, statementMatches_unfold.
  destruct (structurallyMatches stmt req); simpl.
  - destruct (allConditionsMet _ _) as [[|] [e|]]; simpl;
      intuition (eauto; try congruence); by destruct_and?; simplify_eq.
  - intuition congruence.
Qed.

Lemma allowDecidesb_spec (req : Request.t) (stmt : Statement.t) :
  allowDecidesb req stmt = true <-> allowDecides stmt req.
Proof.
  unfold allowDecidesb, allowDecides, fullyMatches.
  rewrite andb_true_iff, String.eqb_eq, statementMatches_unfold.
  destruct (structurallyMatches stmt req); simpl.
  - destruct (allConditionsMet _ _) as [[|] [e|]]; simpl;
      intuition (eauto; try congruence); by destruct_and?; simplify_eq.
  - intuition congruence.
Qed.

Lemma denyLoop_find (stmts : list Statement.t) (req : Request.t) :
  Evaluate_denyLoop (filterStatementsByEffect stmts EffectDeny) req =
  denyOutcome req <$> find (denyDecidesb req) stmts.
Proof.
  induction stmts as [|s stmts IH]; simpl; [done |].
  unfold denyDecidesb at 1.
  destruct (String.eqb (Statement.Effect s) EffectDeny); simpl; [| done].
  destruct (statementMatches s req) as [[|] [e|]] eqn:E; simpl;
    unfold denyOutcome; rewrite ?E; done.
Qed.

Lemma allowLoop_find (stmts : list Statement.t) (req : Request.t) :
  Evaluate_allowLoop (filterStatementsByEffect stmts EffectAllow) req =
  allowResponse <$> find (allowDecidesb req) stmts.
Proof.
  induction stmts as [|s stmts IH]; simpl; [done |].
  unfold allowDecidesb at 1.
  destruct (String.eqb (Statement.Effect s) EffectAllow); simpl; [| done].
  destruct (statementMatches s req) as [[|] [e|]]; simpl; done.
Qed.

(** [Evaluate], once storage has answered, returns the outcome of the first
    Deny statement that decides, else that of the first Allow statement
    that decides, else one of the two default responses. *)
Lemma Evaluate_statements_find (stmts : list Statement.t) (req : Request.t) :
  Evaluate_statements stmts req =
  match stmts with
  | [] => Response.mk EffectDeny noApplicableMessage None
  | _ :: _ =>
      match find (denyDecidesb req) stmts with
      | Some d => denyOutcome req d
      | None =>
          match find (allowDecidesb req) stmts with
          | Some a => allowResponse a
          | None => Response.mk EffectDeny noMatchingMessage None
          end
      end
  end.
Proof.
  unfold Evaluate_statements. destruct stmts as [|s stmts]; [done |].
  cbn [length Nat.eqb]. cbv zeta. rewrite denyLoop_find, allowLoop_find.
  destruct (find (denyDecidesb req) (s :: stmts)); [done |].
  by destruct (find (allowDecidesb req) (s :: stmts)).
Qed.

Lemma Evaluate_statements_deny (stmts : list Statement.t) (req : Request.t)
  (d : Statement.t) :
  find (denyDecidesb req) stmts = Some d ->
  Evaluate_statements stmts req = denyOutcome req d.
Proof.
  intros Hd. rewrite Evaluate_statements_find, Hd. by destruct stmts.
Qed.

Lemma Evaluate_statements_allow (stmts : list Statement.t) (req : Request.t)
  (a : Statement.t) :
  find (denyDecidesb req) stmts = None ->
  find (allowDecidesb req) stmts = Some a ->
  Evaluate_statements stmts req = allowResponse a.
Proof.
  intros Hd Ha. rewrite Evaluate_statements_find, Hd, Ha. by destruct stmts.
Qed.

Lemma Evaluate_statements_default (stmts : list Statement.t) (req : Request.t) :
  stmts <> [] ->
  find (denyDecidesb req) stmts = None ->
  find (allowDecidesb req) stmts = None ->
  Evaluate_statements stmts req = Response.mk EffectDeny noMatchingMessage None.
Proof.
  intros Hne Hd Ha. rewrite Evaluate_statements_find, Hd, Ha. by destruct stmts.
Qed.

Lemma denyOutcome_Effect (req : Request.t) (d : Statement.t) :
  Response.Effect (denyOutcome req d) = EffectDeny
  /\ Response.Decider (denyOutcome req d) = Some (Statement.ID d).
Proof.
  unfold denyOutcome. by destruct (statementMatches d req) as [b [e|]].
Qed.

Lemma find_skip {A : Type} (f : A -> bool) (pre post : list A) (x : A) :
  f x = false -> find f (pre ++ x :: post) = find f (pre ++ post).
Proof.
  intros Hx. induction pre as [|a pre IH]; simpl.
  - by rewrite Hx.
  - by rewrite IH.
Qed.

Lemma Evaluate_ok (storage : Storage) (req : Request.t)
  (stmts : list Statement.t) :
  storage (Request.Principal req) = (stmts, None) ->
  Evaluate (NewEvaluator storage) req = (Evaluate_statements stmts req, None).
Proof. unfold Evaluate. simpl. by intros ->. Qed.

Lemma Evaluate_failed (storage : Storage) (req : Request.t)
  (stmts : list Statement.t) (err : error) :
  storage (Request.Principal req) = (stmts, Some err) ->
  Evaluate (NewEvaluator storage) req =
  (Response_zero, Some ("failed to list statements: " +:+ err)).
Proof. unfold Evaluate. simpl. by intros ->. Qed.

Lemma Condition_Evaluate_error (c : Condition.t) (req : Request.t)
  (err : error) :
  conditionError c req err <-> snd (Condition_Evaluate c req) = Some err.
Proof.
  unfold conditionError, Condition_Evaluate.
  destruct (expr_Compile _) as [e|program].
  - simpl. split; [intros [[= ->] | (? & [=] & _)]; done |].
    intros [= ->]. by left.
  - destruct (expr_Run program req) as [e|[b|]] eqn:E; simpl.
    + split.
      * intros [[=] | (p' & [= <-] & Hr)]. rewrite E in Hr. by simplify_eq.
      * intros [= ->]. right. by exists program.
    + split; [| done].
      intros [[=] | (p' & [= <-] & Hr)]. rewrite E in Hr. done.
    + split; [| done].
      intros [[=] | (p' & [= <-] & Hr)]. rewrite E in Hr. done.
Qed.

(** The error of [allConditionsMet] is that of the first condition that
    fails, provided the conditions before it are met. *)
Lemma allConditionsMet_first_error (cpre cpost : list Condition.t)
  (c : Condition.t) (req : Request.t) (err : error) :
  (forall c', c' ∈ cpre -> Condition_Evaluate c' req = (true, None)) ->
  snd (Condition_Evaluate c req) = Some err ->
  allConditionsMet (cpre ++ c :: cpost) req =
  (false,
   Some ("failed to evaluate condition "
         +:+ strconv_Quote (Condition.Name c) +:+ ": " +:+ err)).
Proof.
  intros Hpre Hc. induction cpre as [|c' cpre IH]; simpl.
  - destruct (Condition_Evaluate c req) as [b o]. simpl in Hc. by subst o.
  - rewrite (Hpre c'); [| left]. simpl. apply IH.
    intros c'' Hin. apply Hpre. by right.
Qed.

Lemma deny_allow_distinct : String.eqb EffectAllow EffectDeny = false.
Proof. reflexivity. Qed.

Lemma denyDecides_not_allow (stmt : Statement.t) (req : Request.t) :
  Statement.Effect stmt = EffectAllow -> denyDecidesb req stmt = false.
Proof. unfold denyDecidesb. intros ->. by rewrite deny_allow_distinct. Qed.

Lemma decides_false (stmt : Statement.t) (req : Request.t) :
  ~ decides stmt req ->
  denyDecidesb req stmt = false /\ allowDecidesb req stmt = false.
Proof.
  intros Hn. split.
  - destruct (denyDecidesb req stmt) eqn:E; [| done].
    exfalso. apply Hn. left. by apply denyDecidesb_spec.
  - destruct (allowDecidesb req stmt) eqn:E; [| done].
    exfalso. apply Hn. right. by apply allowDecidesb_spec.
Qed.

(** The effect of the decision and the presence of a Decider do not
    depend on the order of the statements. *)
Lemma Evaluate_statements_perm (l1 l2 : list Statement.t) (req : Request.t) :
  l1 ≡ₚ l2 ->
  Response.Effect (Evaluate_statements l1 req)
  = Response.Effect (Evaluate_statements l2 req)
  /\ (is_Some (Response.Decider (Evaluate_statements l1 req)) <->
      is_Some (Response.Decider (Evaluate_statements l2 req))).
Proof.
  intros Hp.
  pose proof (find_is_Some_perm (denyDecidesb req) l1 l2 Hp) as Hd.
  pose proof (find_is_Some_perm (allowDecidesb req) l1 l2 Hp) as Ha.
  destruct (find (denyDecidesb req) l1) as [d1|] eqn:D1,
           (find (denyDecidesb req) l2) as [d2|] eqn:D2;
    try absurd_is_Some.
  { rewrite (Evaluate_statements_deny _ _ _ D1), (Evaluate_statements_deny _ _ _ D2).
    destruct (denyOutcome_Effect req d1) as [-> ->].
    by destruct (denyOutcome_Effect req d2) as [-> ->]. }
  destruct (find (allowDecidesb req) l1) as [x1|] eqn:A1,
           (find (allowDecidesb req) l2) as [x2|] eqn:A2;
    try absurd_is_Some.
  { by rewrite (Evaluate_statements_allow _ _ _ D1 A1),
               (Evaluate_statements_allow _ _ _ D2 A2). }
  destruct l1 as [|a1 l1'].
  { apply Permutation_nil in Hp. by subst l2. }
  destruct l2 as [|a2 l2'].
  { symmetry in Hp. by apply Permutation_nil in Hp. }
  by rewrite !Evaluate_statements_default.
Qed.

(** With at most one deciding statement of each effect the whole response
    is independent of the order. *)
Lemma Evaluate_statements_unique (l1 l2 : list Statement.t) (req : Request.t) :
  l1 ≡ₚ l2 ->
  (forall a b, a ∈ l1 -> b ∈ l1 ->
     denyDecides a req -> denyDecides b req -> a = b) ->
  (forall a b, a ∈ l1 -> b ∈ l1 ->
     allowDecides a req -> allowDecides b req -> a = b) ->
  Evaluate_statements l1 req = Evaluate_statements l2 req.
Proof.
  intros Hp Hud Hua.
  assert (forall f : Statement.t -> bool,
            (forall a b, a ∈ l1 -> b ∈ l1 -> f a = true -> f b = true -> a = b) ->
            find f l1 = find f l2) as Hfind.
  { intros f Hu.
    pose proof (find_is_Some_perm f l1 l2 Hp) as Hs.
    destruct (find f l1) as [x|] eqn:E1, (find f l2) as [y|] eqn:E2;
      try absurd_is_Some;
      [| done].
    apply find_some in E1 as [Hx Hfx], E2 as [Hy Hfy].
    apply list_elem_of_In in Hx, Hy. rewrite <- Hp in Hy.
    f_equal. by apply Hu. }
  assert (find (denyDecidesb req) l1 = find (denyDecidesb req) l2) as Hd.
  { apply Hfind. intros a b Ha Hb Hfa Hfb.
    apply Hud; try done; by apply denyDecidesb_spec. }
  assert (find (allowDecidesb req) l1 = find (allowDecidesb req) l2) as Ha.
  { apply Hfind. intros a b Ha Hb Hfa Hfb.
    apply Hua; try done; by apply allowDecidesb_spec. }
  rewrite !Evaluate_statements_find, Hd, Ha.
  destruct l1 as [|a1 l1'].
  { apply Permutation_nil in Hp. by subst l2. }
  destruct l2 as [|a2 l2']; [| done].
  symmetry in Hp. by apply Permutation_nil in Hp.
Qed.

End Facts.

(** ** The loop of the Expanding Evaluator *)

Section ExpansionFacts.
Context `{GoLibs}.
Variable e : ExpandingEvaluator.
Variable req : Request.t.

Local Abbreviation outcome p := (baseEvaluator e (withPrincipal req p)).

Lemma Expanding_record_after (st : expansion) (p : Principal)
  (r : Response.t) (rest : list Principal) :
  outcome p = (r, None) ->
  expansion_after e req rest (Expanding_record st p r) =
  expansion_after e req (p :: rest) st.
Proof.
  intros Hp. unfold expansion_after, Expanding_record. cbn [map find].
  rewrite Hp.
  unfold explicitDenyb, explicitAllowb. cbn [fst snd isNil andb].
  cbn [responses allowingPrincipal denyingPrincipal].
  f_equal.
  - by rewrite <- app_assoc.
  - destruct (allowingPrincipal st); cbn; [by rewrite andb_false_r |].
    rewrite andb_true_r.
    by destruct (String.eqb _ EffectAllow && negb (isNil (Response.Decider r))).
  - destruct (denyingPrincipal st); cbn; [by rewrite andb_false_r |].
    rewrite andb_true_r.
    by destruct (String.eqb _ EffectDeny && negb (isNil (Response.Decider r))).
Qed.

(** When every call succeeds the loop calls the wrapped evaluator on each
    resolved principal, in order, and runs to its end. *)
Lemma Expanding_loop_complete (ps : list Principal) (st : expansion) :
  (forall p, p ∈ ps -> snd (outcome p) = None) ->
  Expanding_loop e req ps st =
  (map (withPrincipal req) ps, inr (expansion_after e req ps st)).
Proof.
  revert st. induction ps as [|p ps IH]; intros st Hok.
  - cbn. do 2 f_equal. destruct st. unfold expansion_after. cbn.
    rewrite app_nil_r. f_equal; by match goal with |- context [orElse ?o] => destruct o end.
  - cbn [Expanding_loop].
    destruct (outcome p) as [r o] eqn:Hp.
    assert (o = None) as -> by (specialize (Hok p); rewrite Hp in Hok; apply Hok; left).
    rewrite IH by (intros q Hq; apply Hok; by right).
    by rewrite (Expanding_record_after _ _ _ _ Hp).
Qed.

(** The loop returns at the first call that fails. *)
Lemma Expanding_loop_abort (pre post : list Principal) (p : Principal)
  (r : Response.t) (err : error) (st : expansion) :
  (forall q, q ∈ pre -> snd (outcome q) = None) ->
  outcome p = (r, Some err) ->
  Expanding_loop e req (pre ++ p :: post) st =
  (map (withPrincipal req) (pre ++ [p]),
   inl (evaluationErrorResponse p err)).
Proof.
  revert st. induction pre as [|q pre IH]; intros st Hok Hp.
  - cbn. by rewrite Hp.
  - cbn [app Expanding_loop map].
    destruct (outcome q) as [rq o] eqn:Hq.
    assert (o = None) as -> by (specialize (Hok q); rewrite Hq in Hok; apply Hok; left).
    rewrite IH; [done | | done]. intros q' Hq'. apply Hok. by right.
Qed.

(** Either every call succeeds or there is a first one that fails. *)
Lemma calls_succeed_or_abort (ps : list Principal) :
  (forall p, p ∈ ps -> snd (outcome p) = None)
  \/ exists pre p post r err,
       ps = pre ++ p :: post
       /\ (forall q, q ∈ pre -> snd (outcome q) = None)
       /\ outcome p = (r, Some err).
Proof.
  induction ps as [|p ps IH].
  - left. intros p Hp. inversion Hp.
  - destruct (outcome p) as [r [err|]] eqn:Hp.
    + right. exists [], p, ps, r, err. repeat split; [| done].
      intros q Hq. inversion Hq.
    + destruct IH as [Hok | (pre & q & post & rq & err & -> & Hpre & Hq)].
      * left. intros q Hq. apply elem_of_cons in Hq as [-> | Hq]; [by rewrite Hp | auto].
      * right. exists (p :: pre), q, post, rq, err. repeat split; [| done].
        intros q' Hq'. apply elem_of_cons in Hq' as [-> | Hq']; [by rewrite Hp | auto].
Qed.

End ExpansionFacts.

(** ** Properties of the Decision Evaluator *)

Section DecisionClaims.
Context `{GoLibs}.

(** C1 (as amended). When storage returns a list in which a Deny statement
    and an Allow statement both match the request structurally with all
    conditions true, [Evaluate] returns, with a nil error, a response with
    effect Deny whose Decider is the ID of the first Deny statement of the
    list that decides: one that matches structurally and whose conditions
    are all true or cannot be evaluated. When the deciding statement has
    all its conditions true the response is the plain denial by that
    statement. For every reordering of the list the effect is Deny and a
    Decider is present. *)
Theorem C1_deny_overrides_allow (storage : Storage) (req : Request.t)
  (stmts : list Statement.t) :
  storage (Request.Principal req) = (stmts, None) ->
  (exists d, d ∈ stmts /\ Statement.Effect d = EffectDeny /\ fullyMatches d req) ->
  (exists a, a ∈ stmts /\ Statement.Effect a = EffectAllow /\ fullyMatches a req) ->
  exists pre d post resp,
    stmts = pre ++ d :: post
    /\ denyDecides d req
    /\ (forall x, x ∈ pre -> ~ denyDecides x req)
    /\ Evaluate (NewEvaluator storage) req = (resp, None)
    /\ Response.Effect resp = EffectDeny
    /\ Response.Decider resp = Some (Statement.ID d)
    /\ (fullyMatches d req -> resp = denyResponse d)
    /\ (forall stmts',
          stmts' ≡ₚ stmts ->
          Response.Effect (Evaluate_statements stmts' req) = EffectDeny
          /\ is_Some (Response.Decider (Evaluate_statements stmts' req))).
Proof.
  intros Hst (d0 & Hin & Heff & Hstruct & Hcond) _.
  assert (is_Some (find (denyDecidesb req) stmts)) as [d Hd].
  { apply find_is_Some_iff. exists d0. split; [done |].
    apply denyDecidesb_spec. repeat split; auto. }
  pose proof Hd as Hfirst.
  apply find_first in Hfirst as (pre & post & -> & Hdd & Hpre).
  exists pre, d, post, (denyOutcome req d).
  destruct (denyOutcome_Effect req d) as [He Hdec].
  split_and!; try done.
  - by apply denyDecidesb_spec.
  - intros x Hx Hdx. apply denyDecidesb_spec in Hdx.
    rewrite (Hpre x Hx) in Hdx. done.
  - by rewrite (Evaluate_ok _ _ _ Hst), (Evaluate_statements_deny _ _ _ Hd).
  - intros [Hs Hc]. unfold denyOutcome.
    by rewrite statementMatches_unfold, Hs, Hc.
  - intros stmts' Hp.
    destruct (Evaluate_statements_perm _ _ req Hp) as [-> ->].
    rewrite (Evaluate_statements_deny _ _ _ Hd).
    by rewrite He, Hdec.
Qed.

(** C4. A Deny statement that matches the request structurally and whose
    condition [c] fails to evaluate (at compilation or at run time, the
    conditions before it being met) makes [Evaluate] fail closed: the error
    value is nil, the effect is Deny and the Decider is set. When the scan
    of the Deny statements reaches that statement (no Deny statement before
    it in the list decides) [Evaluate] returns at once the Deny response
    whose Decider is the ID of that statement and whose message names the
    statement, the condition and the underlying error. *)
Theorem C4_deny_condition_error_fails_closed (storage : Storage)
  (req : Request.t) (pre post : list Statement.t) (s : Statement.t)
  (cpre cpost : list Condition.t) (c : Condition.t) (err : error) :
  storage (Request.Principal req) = (pre ++ s :: post, None) ->
  Statement.Effect s = EffectDeny ->
  structurallyMatches s req = true ->
  Statement.Conditions s = cpre ++ c :: cpost ->
  (forall c', c' ∈ cpre -> Condition_Evaluate c' req = (true, None)) ->
  conditionError c req err ->
  (snd (Evaluate (NewEvaluator storage) req) = None
   /\ Response.Effect (fst (Evaluate (NewEvaluator storage) req)) = EffectDeny
   /\ is_Some (Response.Decider (fst (Evaluate (NewEvaluator storage) req))))
  /\ ((forall d, d ∈ pre -> ~ denyDecides d req) ->
      Evaluate (NewEvaluator storage) req =
      (Response.mk EffectDeny
         ("failed to evaluate condition for deny statement "
          +:+ strconv_Quote (Statement.ID s) +:+ ": "
          +:+ "failed to evaluate condition "
          +:+ strconv_Quote (Condition.Name c) +:+ ": " +:+ err)
         (Some (Statement.ID s)),
       None)).
Proof.
  intros Hst Heff Hs Hcs Hcpre Hc.
  apply Condition_Evaluate_error in Hc.
  pose proof (allConditionsMet_first_error cpre cpost c req err Hcpre Hc) as Hall.
  rewrite <- Hcs in Hall.
  assert (denyDecidesb req s = true) as Hds.
  { apply denyDecidesb_spec. repeat split; auto.
    right. unfold conditionsFail. by rewrite Hall. }
  rewrite (Evaluate_ok _ _ _ Hst). cbn [fst snd].
  split.
  - assert (is_Some (find (denyDecidesb req) (pre ++ s :: post))) as [d Hd].
    { apply find_is_Some_iff. exists s. split; [| done].
      apply elem_of_app. right. left. }
    rewrite (Evaluate_statements_deny _ _ _ Hd).
    destruct (denyOutcome_Effect req d) as [-> ->]. done.
  - intros Hreach.
    assert (find (denyDecidesb req) (pre ++ s :: post) = Some s) as Hd.
    { apply find_first. exists pre, post. split_and!; [done | done |].
      intros y Hy. destruct (denyDecidesb req y) eqn:E; [| done].
      apply denyDecidesb_spec in E. by destruct (Hreach y Hy). }
    rewrite (Evaluate_statements_deny _ _ _ Hd).
    unfold denyOutcome. by rewrite statementMatches_unfold, Hs, Hall.
Qed.

(** C5. An Allow statement whose conditions fail to evaluate is skipped:
    the Allow loop goes on with the statements after it; [Evaluate] returns
    a nil error; the response is the one [Evaluate] gives for the list
    without that statement (when other statements remain); if the scan gets
    through the Deny statements (none of them decides) and no other Allow
    statement matches, the response is the default deny with a nil Decider
    and the message for no matching statement; and a response with effect
    Allow is always due to another Allow statement that matches. *)
Theorem C5_allow_condition_error_skipped (storage : Storage)
  (req : Request.t) (pre post : list Statement.t) (s : Statement.t) :
  storage (Request.Principal req) = (pre ++ s :: post, None) ->
  Statement.Effect s = EffectAllow ->
  structurallyMatches s req = true ->
  conditionsFail s req ->
  (forall rest,
     Evaluate_allowLoop (s :: rest) req = Evaluate_allowLoop rest req)
  /\ snd (Evaluate (NewEvaluator storage) req) = None
  /\ (pre ++ post <> [] ->
      Evaluate (NewEvaluator storage) req =
      (Evaluate_statements (pre ++ post) req, None))
  /\ ((forall t, t ∈ pre ++ post -> ~ denyDecides t req) ->
      (forall t, t ∈ pre ++ post -> ~ allowDecides t req) ->
      Evaluate (NewEvaluator storage) req =
      (Response.mk EffectDeny
         "no matching statement found, access denied by default" None, None))
  /\ (Response.Effect (fst (Evaluate (NewEvaluator storage) req)) = EffectAllow ->
      exists t,
        t ∈ pre ++ post /\ allowDecides t req
        /\ fst (Evaluate (NewEvaluator storage) req) = allowResponse t).
Proof.
  intros Hst Heff Hs [err Herr].
  assert (statementMatches s req = (false, Some err)) as Hsm.
  { rewrite statementMatches_unfold, Hs.
    destruct (allConditionsMet _ _) as [b o]. simpl in Herr. by subst o. }
  assert (denyDecidesb req s = false) as Hd by by apply denyDecides_not_allow.
  assert (allowDecidesb req s = false) as Ha.
  { unfold allowDecidesb. rewrite Hsm. apply andb_false_r. }
  assert (Evaluate_statements (pre ++ s :: post) req =
          match pre ++ post with
          | [] => Response.mk EffectDeny noMatchingMessage None
          | _ :: _ => Evaluate_statements (pre ++ post) req
          end) as Hskip.
  { rewrite !Evaluate_statements_find.
    rewrite (find_skip _ _ _ _ Hd), (find_skip _ _ _ _ Ha).
    destruct pre as [|p pre]; [destruct post |]; done. }
  rewrite (Evaluate_ok _ _ _ Hst). cbn [fst snd]. split_and!.
  - intros rest. cbn [Evaluate_allowLoop]. by rewrite Hsm.
  - done.
  - intros Hne. rewrite Hskip. by destruct (pre ++ post).
  - intros Hnd Hna. rewrite Hskip.
    destruct (pre ++ post) as [|t l] eqn:E; [done |].
    rewrite Evaluate_statements_default; [done | done | |].
    + apply find_none_iff. intros y Hy.
      apply decides_false. intros [? | ?]; [by apply (Hnd y) | by apply (Hna y)].
    + apply find_none_iff. intros y Hy.
      apply decides_false. intros [? | ?]; [by apply (Hnd y) | by apply (Hna y)].
  - rewrite Hskip. intros Hallow.
    destruct (pre ++ post) as [|t0 l] eqn:E; [done |]. rewrite <- E in *.
    rewrite Evaluate_statements_find in Hallow |- *.
    destruct (pre ++ post) as [|t1 l1] eqn:E1; [done |]. rewrite <- E1 in *.
    destruct (find (denyDecidesb req) (pre ++ post)) as [d|] eqn:Hfd.
    { destruct (denyOutcome_Effect req d) as [He _]. by rewrite He in Hallow. }
    destruct (find (allowDecidesb req) (pre ++ post)) as [a|] eqn:Hfa; [| done].
    exists a. apply find_some in Hfa as [Hin Hda].
    split_and!; [by apply list_elem_of_In | by apply allowDecidesb_spec | done].
Qed.

(** C2, for the Decision Evaluator. The Decider of the response is set
    exactly when storage answered and some statement of the answer decides
    the request; the Decider then is the ID of a deciding statement whose
    effect is the effect of the response. *)
Lemma Evaluate_Decider (e : evaluator) (req : Request.t) :
  (is_Some (Response.Decider (fst (Evaluate e req))) <->
   exists stmts s,
     storage e (Request.Principal req) = (stmts, None)
     /\ s ∈ stmts /\ decides s req)
  /\ (forall id,
        Response.Decider (fst (Evaluate e req)) = Some id ->
        exists stmts s,
          storage e (Request.Principal req) = (stmts, None)
          /\ s ∈ stmts /\ decides s req /\ Statement.ID s = id
          /\ Response.Effect (fst (Evaluate e req)) = Statement.Effect s).
Proof.
  destruct e as [st]. unfold Evaluate. cbn [storage].
  destruct (st (Request.Principal req)) as [stmts [err|]] eqn:Hst; cbn [fst].
  { split.
    - split; [by intros [? ?] | by intros (? & ? & [=] & _)].
    - by intros id. }
  rewrite Evaluate_statements_find.
  assert (forall s, s ∈ stmts -> decides s req ->
            is_Some (find (denyDecidesb req) stmts)
            \/ is_Some (find (allowDecidesb req) stmts)) as Hdec.
  { intros s Hin [Hd | Ha]; [left | right]; apply find_is_Some_iff; exists s.
    - split; [done | by apply denyDecidesb_spec].
    - split; [done | by apply allowDecidesb_spec]. }
  destruct stmts as [|s0 stmts'] eqn:Es.
  { split.
    - split; [by intros [? ?] |].
      intros (? & s & [= <-] & Hin & _). inversion Hin.
    - by intros id. }
  rewrite <- Es in *. clear Es.
  destruct (find (denyDecidesb req) stmts) as [d|] eqn:Hfd.
  { destruct (denyOutcome_Effect req d) as [He Hdc].
    apply find_some in Hfd as [Hin Hd]. apply list_elem_of_In in Hin.
    apply denyDecidesb_spec in Hd. split.
    - split; [intros _ | by rewrite Hdc]. exists stmts, d. split_and!; try done. by left.
    - intros id. rewrite Hdc. intros [= <-]. exists stmts, d.
      split_and!; try done; [by left | rewrite He; symmetry; apply Hd]. }
  destruct (find (allowDecidesb req) stmts) as [a|] eqn:Hfa.
  { apply find_some in Hfa as [Hin Ha]. apply list_elem_of_In in Hin.
    apply allowDecidesb_spec in Ha. split.
    - split; [intros _ | done]. exists stmts, a. split_and!; try done. by right.
    - intros id [= <-]. exists stmts, a.
      split_and!; try done; [by right | symmetry; apply Ha]. }
  split.
  - split; [by intros [? ?] |].
    intros (? & s & [= <-] & Hin & Hs).
    destruct (Hdec s Hin Hs) as [[? ?] | [? ?]]; done.
  - by intros id.
Qed.

End DecisionClaims.

(** ** Properties of the Expanding Evaluator *)

Section ExpansionClaims.
Context `{GoLibs}.

Local Abbreviation outcomeOf e req p := (baseEvaluator e (withPrincipal req p)).

Lemma Expanding_decide_after (e : ExpandingEvaluator) (req : Request.t)
  (ps : list Principal) :
  Expanding_decide (expansion_after e req ps expansion_init) =
  match find (fun p => explicitDenyb (outcomeOf e req p)) ps with
  | Some p => expansionDenied p
  | None =>
      match find (fun p => explicitAllowb (outcomeOf e req p)) ps with
      | Some p => expansionAllowed p
      | None => expansionDefault
      end
  end.
Proof. reflexivity. Qed.

Lemma Expanding_run_complete (e : ExpandingEvaluator) (req : Request.t)
  (ps : list Principal) :
  resolver e (Request.Principal req) = (ps, None) ->
  (forall p, p ∈ ps -> snd (outcomeOf e req p) = None) ->
  Expanding_run e req =
  (map (withPrincipal req) ps,
   (Expanding_decide (expansion_after e req ps expansion_init), None)).
Proof.
  intros Hr Hok. unfold Expanding_run.
  by rewrite Hr, (Expanding_loop_complete e req ps _ Hok).
Qed.

Lemma Expanding_run_abort (e : ExpandingEvaluator) (req : Request.t)
  (pre post : list Principal) (p : Principal) (r : Response.t) (err : error) :
  resolver e (Request.Principal req) = (pre ++ p :: post, None) ->
  (forall q, q ∈ pre -> snd (outcomeOf e req q) = None) ->
  outcomeOf e req p = (r, Some err) ->
  Expanding_run e req =
  (map (withPrincipal req) (pre ++ [p]),
   (evaluationErrorResponse p err, None)).
Proof.
  intros Hr Hok Hp. unfold Expanding_run.
  by rewrite Hr, (Expanding_loop_abort e req pre post p r err _ Hok Hp).
Qed.

Lemma Expanding_run_unresolved (e : ExpandingEvaluator) (req : Request.t)
  (ps : list Principal) (err : error) :
  resolver e (Request.Principal req) = (ps, Some err) ->
  Expanding_run e req =
  ([], (Response.mk EffectDeny ("failed to resolve principals: " +:+ err) None,
        None)).
Proof. intros Hr. unfold Expanding_run. by rewrite Hr. Qed.

(** C3 (as amended). Provided the resolution and every call of the wrapped
    evaluator succeed, the Expanding Evaluator calls the wrapped evaluator
    once per resolved principal, in order, and its result is: Deny with
    Decider [principal_expansion:] followed by the first resolved principal
    with an explicit Deny, if there is one (whatever was recorded for the
    principals before it); else Allow with Decider [principal_expansion:]
    followed by the first resolved principal with an explicit Allow, if
    there is one; else Deny with a nil Decider and the message for no
    match on any expanded principal. *)
Theorem C3_expansion_merge (e : ExpandingEvaluator) (req : Request.t)
  (ps : list Principal) :
  resolver e (Request.Principal req) = (ps, None) ->
  (forall p, p ∈ ps -> snd (baseEvaluator e (withPrincipal req p)) = None) ->
  Expanding_calls e req = map (withPrincipal req) ps
  /\ Expanding_Evaluate e req =
     (match find (fun p => explicitDenyb (baseEvaluator e (withPrincipal req p))) ps with
      | Some p =>
          Response.mk EffectDeny ("access denied for principal " +:+ p)
            (Some ("principal_expansion:" +:+ p))
      | None =>
          match find (fun p => explicitAllowb (baseEvaluator e (withPrincipal req p))) ps with
          | Some p =>
              Response.mk EffectAllow ("access allowed for principal " +:+ p)
                (Some ("principal_expansion:" +:+ p))
          | None =>
              Response.mk EffectDeny
                "no matching statements found for any expanded principal, access denied by default"
                None
          end
      end, None).
Proof.
  intros Hr Hok. unfold Expanding_calls, Expanding_Evaluate.
  rewrite (Expanding_run_complete e req ps Hr Hok). cbn [fst snd].
  split; [done |]. by rewrite Expanding_decide_after.
Qed.

(** C6. The two layers report failures through opposite channels. A failure
    of storage makes the Decision Evaluator return the zero response with a
    non-nil error that wraps the storage error. A failure of the resolver,
    and the first failure of the wrapped evaluator on a resolved principal,
    make the Expanding Evaluator return a Deny response with a nil Decider
    whose message embeds the error text, with a nil error. *)
Theorem C6_error_channels :
  (forall (storage : Storage) (req : Request.t) (stmts : list Statement.t)
          (err : error),
     storage (Request.Principal req) = (stmts, Some err) ->
     Evaluate (NewEvaluator storage) req =
     (Response_zero, Some ("failed to list statements: " +:+ err)))
  /\ (forall (e : ExpandingEvaluator) (req : Request.t) (ps : list Principal)
             (err : error),
        resolver e (Request.Principal req) = (ps, Some err) ->
        Expanding_Evaluate e req =
        (Response.mk EffectDeny ("failed to resolve principals: " +:+ err) None,
         None))
  /\ (forall (e : ExpandingEvaluator) (req : Request.t)
             (pre post : list Principal) (p : Principal) (r : Response.t)
             (err : error),
        resolver e (Request.Principal req) = (pre ++ p :: post, None) ->
        (forall q, q ∈ pre ->
           snd (baseEvaluator e (withPrincipal req q)) = None) ->
        baseEvaluator e (withPrincipal req p) = (r, Some err) ->
        Expanding_Evaluate e req =
        (Response.mk EffectDeny
           ("evaluation error for principal " +:+ p +:+ ": " +:+ err) None,
         None)).
Proof.
  split_and!.
  - intros storage req stmts err. apply Evaluate_failed.
  - intros e req ps err Hr. unfold Expanding_Evaluate.
    by rewrite (Expanding_run_unresolved e req ps err Hr).
  - intros e req pre post p r err Hr Hok Hp. unfold Expanding_Evaluate.
    by rewrite (Expanding_run_abort e req pre post p r err Hr Hok Hp).
Qed.

Lemma Expanding_Decider (e : ExpandingEvaluator) (req : Request.t) :
  is_Some (Response.Decider (fst (Expanding_Evaluate e req))) <->
  exists ps,
    resolver e (Request.Principal req) = (ps, None)
    /\ (forall p, p ∈ ps -> snd (baseEvaluator e (withPrincipal req p)) = None)
    /\ exists p,
         p ∈ ps
         /\ (explicitDenyb (baseEvaluator e (withPrincipal req p)) = true
             \/ explicitAllowb (baseEvaluator e (withPrincipal req p)) = true).
Proof.
  unfold Expanding_Evaluate.
  destruct (resolver e (Request.Principal req)) as [ps [err|]] eqn:Hr.
  { rewrite (Expanding_run_unresolved e req ps err Hr). cbn.
    split; [by intros [? ?] | by intros (? & [=] & _)]. }
  destruct (calls_succeed_or_abort e req ps)
    as [Hok | (pre & p & post & r & err & -> & Hpre & Hp)].
  - rewrite (Expanding_run_complete e req ps Hr Hok). cbn [fst snd].
    rewrite Expanding_decide_after.
    destruct (find (fun p => explicitDenyb _) ps) as [p|] eqn:Hd.
    { apply find_some in Hd as [Hin Hd]. apply list_elem_of_In in Hin.
      split; [intros _ | done]. exists ps. split_and!; try done.
      exists p. auto. }
    destruct (find (fun p => explicitAllowb _) ps) as [p|] eqn:Ha.
    { apply find_some in Ha as [Hin Ha]. apply list_elem_of_In in Hin.
      split; [intros _ | done]. exists ps. split_and!; try done.
      exists p. auto. }
    split; [by intros [? ?] |].
    intros (ps' & [= <-] & _ & p & Hin & [Hp | Hp]).
    + rewrite find_none_iff in Hd. rewrite (Hd p Hin) in Hp. done.
    + rewrite find_none_iff in Ha. rewrite (Ha p Hin) in Hp. done.
  - rewrite (Expanding_run_abort e req pre post p r err Hr Hpre Hp). cbn.
    split; [by intros [? ?] |].
    intros (ps' & [= <-] & Hok & _).
    specialize (Hok p). rewrite Hp in Hok. cbn in Hok.
    assert (Some err = None) by (apply Hok, elem_of_app; right; left). done.
Qed.

(** C2. For the Decision Evaluator, the Decider of the response is set if
    and only if storage answered and a statement of the answer decides the
    request, and it then is the ID of such a statement, whose effect is the
    effect of the response; an empty answer and a non-empty answer without a
    deciding statement give the two default denials, with a nil Decider and
    two different messages. For the Expanding Evaluator, the Decider is set
    if and only if the resolution and every call of the wrapped evaluator
    succeeded and one of the calls gave an explicit Deny or an explicit
    Allow. *)
Theorem C2_decider_iff_explicit :
  (forall (e : evaluator) (req : Request.t),
     (is_Some (Response.Decider (fst (Evaluate e req))) <->
      exists stmts s,
        storage e (Request.Principal req) = (stmts, None)
        /\ s ∈ stmts /\ decides s req)
     /\ (forall id,
           Response.Decider (fst (Evaluate e req)) = Some id ->
           exists stmts s,
             storage e (Request.Principal req) = (stmts, None)
             /\ s ∈ stmts /\ decides s req /\ Statement.ID s = id
             /\ Response.Effect (fst (Evaluate e req)) = Statement.Effect s))
  /\ (forall (e : evaluator) (req : Request.t),
        storage e (Request.Principal req) = ([], None) ->
        Evaluate e req =
        (Response.mk EffectDeny
           "no applicable statements found, access denied by default" None,
         None))
  /\ (forall (e : evaluator) (req : Request.t) (stmts : list Statement.t),
        storage e (Request.Principal req) = (stmts, None) ->
        stmts <> [] ->
        (forall s, s ∈ stmts -> ~ decides s req) ->
        Evaluate e req =
        (Response.mk EffectDeny
           "no matching statement found, access denied by default" None,
         None))
  /\ noApplicableMessage <> noMatchingMessage
  /\ (forall (e : ExpandingEvaluator) (req : Request.t),
        is_Some (Response.Decider (fst (Expanding_Evaluate e req))) <->
        exists ps,
          resolver e (Request.Principal req) = (ps, None)
          /\ (forall p, p ∈ ps ->
                snd (baseEvaluator e (withPrincipal req p)) = None)
          /\ exists p,
               p ∈ ps
               /\ (explicitDenyb (baseEvaluator e (withPrincipal req p)) = true
                   \/ explicitAllowb (baseEvaluator e (withPrincipal req p))
                      = true)).
Proof.
  split_and!.
  - apply Evaluate_Decider.
  - intros [st] req Hst. cbn in Hst. by rewrite (Evaluate_ok _ _ _ Hst).
  - intros [st] req stmts Hst Hne Hnone. cbn in Hst.
    rewrite (Evaluate_ok _ _ _ Hst).
    rewrite Evaluate_statements_default; [done | done | |];
      apply find_none_iff; intros y Hy; by apply decides_false, Hnone.
  - done.
  - apply Expanding_Decider.
Qed.

Lemma find_before {A : Type} (f : A -> bool) (pre post : list A) (x : A) :
  f x = true ->
  find f (pre ++ x :: post) = Some (default x (find f pre)).
Proof.
  intros Hx. induction pre as [|a pre IH]; simpl.
  - by rewrite Hx.
  - by destruct (f a).
Qed.

Lemma Expanding_error_nil (e : ExpandingEvaluator) (req : Request.t) :
  snd (Expanding_Evaluate e req) = None.
Proof.
  unfold Expanding_Evaluate, Expanding_run.
  destruct (resolver e _) as [ps [err|]]; [done |].
  by destruct (Expanding_loop e req ps expansion_init) as [calls [r|st]].
Qed.

(** A Deny statement whose conditions cannot be evaluated makes the
    outcome of the Decision Evaluator an explicit Deny. *)
Lemma Evaluate_fail_closed (storage : Storage) (req : Request.t)
  (stmts : list Statement.t) (s : Statement.t) :
  storage (Request.Principal req) = (stmts, None) ->
  s ∈ stmts ->
  Statement.Effect s = EffectDeny ->
  structurallyMatches s req = true ->
  conditionsFail s req ->
  explicitDenyb (Evaluate (NewEvaluator storage) req) = true.
Proof.
  intros Hst Hin Heff Hs Hfail.
  assert (is_Some (find (denyDecidesb req) stmts)) as [d Hd].
  { apply find_is_Some_iff. exists s. split; [done |].
    apply denyDecidesb_spec. split_and!; auto. }
  rewrite (Evaluate_ok _ _ _ Hst), (Evaluate_statements_deny _ _ _ Hd).
  unfold explicitDenyb. cbn [fst snd isNil andb].
  by destruct (denyOutcome_Effect req d) as [-> ->].
Qed.

(** C10 (as amended). Let a resolved principal [p] have, in the answer of
    storage, a Deny statement that matches the expanded request
    structurally and whose conditions cannot be evaluated. Then the
    Decision Evaluator gives an explicit Deny for [p], and the merged
    result has effect Deny and a nil error, whatever the outcomes for the
    other principals. When storage answers for every other resolved
    principal, the Decider of the merged result is [principal_expansion:]
    followed by the first resolved principal with an explicit Deny: a
    principal [q] of the resolved list that has an explicit Deny while none
    of the principals resolved [before] it has one. It is [p] or a principal
    resolved before [p], and it is [p] itself when no principal resolved
    before [p] has an explicit Deny. *)
Theorem C10_condition_error_denies_expansion (storage : Storage)
  (res : PrincipalResolver) (req : Request.t) (pre post : list Principal)
  (p : Principal) (stmts : list Statement.t) (s : Statement.t) :
  res (Request.Principal req) = (pre ++ p :: post, None) ->
  storage p = (stmts, None) ->
  s ∈ stmts ->
  Statement.Effect s = EffectDeny ->
  structurallyMatches s (withPrincipal req p) = true ->
  conditionsFail s (withPrincipal req p) ->
  explicitDenyb (Evaluate (NewEvaluator storage) (withPrincipal req p)) = true
  /\ snd (Expanding_Evaluate
            (NewExpandingEvaluator (Evaluate (NewEvaluator storage)) res) req)
     = None
  /\ Response.Effect
       (fst (Expanding_Evaluate
               (NewExpandingEvaluator (Evaluate (NewEvaluator storage)) res)
               req))
     = EffectDeny
  /\ ((forall q, q ∈ pre ++ post -> snd (storage q) = None) ->
      exists q before after,
        pre ++ p :: post = before ++ q :: after
        /\ (forall q', q' ∈ before ->
              explicitDenyb
                (Evaluate (NewEvaluator storage) (withPrincipal req q'))
              = false)
        /\ explicitDenyb
             (Evaluate (NewEvaluator storage) (withPrincipal req q)) = true
        /\ q ∈ pre ++ [p]
        /\ Expanding_Evaluate
             (NewExpandingEvaluator (Evaluate (NewEvaluator storage)) res) req
           = (Response.mk EffectDeny ("access denied for principal " +:+ q)
                (Some ("principal_expansion:" +:+ q)),
              None)
        /\ ((forall q', q' ∈ pre ->
               explicitDenyb
                 (Evaluate (NewEvaluator storage) (withPrincipal req q'))
               = false) ->
            q = p)).
Proof.
  intros Hr Hst Hin Heff Hs Hfail.
  set (e := NewExpandingEvaluator (Evaluate (NewEvaluator storage)) res).
  assert (explicitDenyb (Evaluate (NewEvaluator storage) (withPrincipal req p))
          = true) as Hp.
  { by apply (Evaluate_fail_closed storage (withPrincipal req p) stmts s). }
  pose proof (find_before
    (fun q => explicitDenyb (baseEvaluator e (withPrincipal req q)))
    pre post p Hp) as Hfind.
  split_and!; [done | apply Expanding_error_nil | |].
  - unfold Expanding_Evaluate.
    destruct (calls_succeed_or_abort e req (pre ++ p :: post))
      as [Hok | (pre' & p' & post' & r & err & Heq & Hpre & Hp')].
    + rewrite (Expanding_run_complete e req _ Hr Hok). cbn [fst snd].
      by rewrite Expanding_decide_after, Hfind.
    + rewrite Heq in Hr.
      by rewrite (Expanding_run_abort e req pre' post' p' r err Hr Hpre Hp').
  - intros Hothers.
    assert (forall q, q ∈ pre ++ p :: post ->
              snd (baseEvaluator e (withPrincipal req q)) = None) as Hok.
    { intros q Hq. cbn. unfold Evaluate. cbn.
      assert (snd (storage q) = None) as Hq'.
      { apply elem_of_app in Hq as [Hq | Hq].
        - apply Hothers, elem_of_app. by left.
        - apply elem_of_cons in Hq as [-> | Hq]; [by rewrite Hst |].
          apply Hothers, elem_of_app. by right. }
      destruct (storage q) as [l o]. cbn in Hq'. by subst o. }
    destruct (proj1 (find_first _ _ _) Hfind)
      as (before & after & Hsplit & Hdeny & Hbefore).
    exists (default p (find (fun q => explicitDenyb
                               (baseEvaluator e (withPrincipal req q))) pre)),
      before, after.
    split_and!; [exact Hsplit | exact Hbefore | exact Hdeny | | |].
    + destruct (find _ pre) as [q|] eqn:Hq; cbn.
      * apply find_some in Hq as [Hq _]. apply list_elem_of_In in Hq.
        apply elem_of_app. by left.
      * apply elem_of_app. right. left.
    + unfold Expanding_Evaluate.
      rewrite (Expanding_run_complete e req _ Hr Hok). cbn [fst snd].
      by rewrite Expanding_decide_after, Hfind.
    + intros Hnone.
      assert (find (fun q => explicitDenyb (baseEvaluator e (withPrincipal req q)))
                pre = None) as ->; [| done].
      apply find_none_iff. intros y Hy. by apply Hnone.
Qed.

End ExpansionClaims.

(** ** Properties of the in-memory store *)

Section StorageClaims.
Context `{GoLibs}.

Lemma filter_perm {A : Type} (f : A -> bool) (l1 l2 : list A) :
  l1 ≡ₚ l2 -> List.filter f l1 ≡ₚ List.filter f l2.
Proof.
  induction 1 as [|x l1 l2 _ IH|x y l|l1 l2 l3 _ IH1 _ IH2]; simpl.
  - done.
  - destruct (f x); [by constructor | done].
  - destruct (f x), (f y); try done. apply perm_swap.
  - by etransitivity.
Qed.

(** The loop of [ListStatementsByPrincipal] fails at the first visited
    statement one of whose patterns is in error before any pattern of it
    matched, and otherwise keeps, in the order of the visit, the statements
    with a matching pattern. *)
Lemma List_statementsLoop_spec (order : list Statement.t)
  (principal : Principal) (result : list Statement.t) :
  List_statementsLoop order principal result =
  match find (failsb principal) order with
  | Some stmt =>
      ([], match List_principalsLoop (Statement.Principals stmt) principal with
           | inl err => Some err
           | inr _ => None
           end)
  | None => (result ++ List.filter (keptb principal) order, None)
  end.
Proof.
  revert result. induction order as [|stmt order IH]; intros result; simpl.
  - by rewrite app_nil_r.
  - unfold failsb at 1, keptb at 1.
    destruct (List_principalsLoop _ principal) as [err|[|]] eqn:E.
    + by rewrite E.
    + rewrite IH. destruct (find _ order); [done |]. by rewrite <- app_assoc.
    + by rewrite IH.
Qed.

Lemma rangeOrder_elem (s : inMemoryStorage) (order : list Statement.t)
  (stmt : Statement.t) :
  rangeOrder s order ->
  stmt ∈ order <-> exists id, statements s !! id = Some stmt.
Proof.
  unfold rangeOrder. intros ->. rewrite list_elem_of_fmap. split.
  - intros ([id x] & -> & Hin). exists id. by apply elem_of_map_to_list.
  - intros (id & Hid). exists (id, stmt). split; [done |].
    by apply elem_of_map_to_list.
Qed.

(** Without a pattern in error and without a bare star among the patterns,
    the loop of the store over the patterns of a statement and the check of
    the principal in statement evaluation agree. *)
Lemma List_principalsLoop_principalMatches (principals : list Principal)
  (principal : Principal) :
  (forall pat, pat ∈ principals ->
     snd (doublestar_Match pat principal) = None) ->
  (forall pat, pat ∈ principals -> pat <> "*") ->
  List_principalsLoop principals principal =
  inr (principalMatches principals principal).
Proof.
  induction principals as [|p ps IH]; intros Hok Hns; simpl; [done |].
  pose proof (Hok p (list_elem_of_here _ _)) as Hp.
  pose proof (Hns p (list_elem_of_here _ _)) as Hstar.
  unfold enhancePattern. destruct (String.eqb_spec p "*") as [-> | _]; [done |].
  destruct (doublestar_Match p principal) as [[|] o]; simpl in *; subst o.
  - done.
  - apply IH; intros pat Hpat; [apply Hok | apply Hns]; by right.
Qed.

(** C8 (as amended). When none of the stored principal patterns is in
    error on the given principal and none of them is the bare star,
    [ListStatementsByPrincipal] of the in-memory store returns, with a nil
    error, exactly the stored statements whose principal patterns match the
    principal, in the sense of statement evaluation, each once and in the
    order of the visit of the map. The Active flag plays no part: whether a
    stored statement is returned depends on its principal patterns only. *)
Theorem C8_list_by_principal (s : inMemoryStorage)
  (order : list Statement.t) (principal : Principal) :
  rangeOrder s order ->
  (forall stmt pat,
     stmt ∈ order -> pat ∈ Statement.Principals stmt ->
     snd (doublestar_Match pat principal) = None) ->
  (forall stmt pat,
     stmt ∈ order -> pat ∈ Statement.Principals stmt -> pat <> "*") ->
  exists result,
    ListStatementsByPrincipal order principal = (result, None)
    /\ result
       = List.filter
           (fun stmt => principalMatches (Statement.Principals stmt) principal)
           order
    /\ (forall stmt,
          stmt ∈ result <->
          (exists id, statements s !! id = Some stmt)
          /\ principalMatches (Statement.Principals stmt) principal = true)
    /\ (forall stmt stmt',
          stmt ∈ result ->
          (exists id, statements s !! id = Some stmt') ->
          Statement.Principals stmt' = Statement.Principals stmt ->
          stmt' ∈ result).
Proof.
  intros Hrange Hok Hns.
  assert (forall stmt, stmt ∈ order ->
            List_principalsLoop (Statement.Principals stmt) principal =
            inr (principalMatches (Statement.Principals stmt) principal))
    as Hloop.
  { intros stmt Hin. apply List_principalsLoop_principalMatches; eauto. }
  assert (forall stmt, stmt ∈ order ->
            keptb principal stmt
            = principalMatches (Statement.Principals stmt) principal) as Hkept.
  { intros stmt Hin. unfold keptb. rewrite (Hloop stmt Hin).
    by destruct (principalMatches _ _). }
  assert (forall stmt,
            stmt ∈ List.filter
                     (fun stmt =>
                        principalMatches (Statement.Principals stmt) principal)
                     order <->
            (exists id, statements s !! id = Some stmt)
            /\ principalMatches (Statement.Principals stmt) principal = true)
    as Hmem.
  { intros stmt. rewrite list_elem_of_In, filter_In, <- list_elem_of_In.
    by rewrite <- (rangeOrder_elem s order stmt Hrange). }
  exists (List.filter
            (fun stmt => principalMatches (Statement.Principals stmt) principal)
            order).
  split_and!; [| done | exact Hmem |].
  - unfold ListStatementsByPrincipal. rewrite List_statementsLoop_spec.
    assert (find (failsb principal) order = None) as ->.
    { apply find_none_iff. intros stmt Hin. unfold failsb. by rewrite Hloop. }
    cbn [app]. f_equal. apply filter_ext_in. intros stmt Hin.
    apply Hkept. by apply list_elem_of_In.
  - intros stmt stmt' Hin Hstored Heq. apply Hmem. split; [done |].
    rewrite Heq. by apply Hmem in Hin as [_ Hin].
Qed.

Lemma ListStatementsByPrincipal_cases (order : list Statement.t)
  (principal : Principal) :
  (exists err,
     is_Some (find (failsb principal) order)
     /\ ListStatementsByPrincipal order principal = ([], Some err))
  \/ (find (failsb principal) order = None
      /\ ListStatementsByPrincipal order principal
         = (List.filter (keptb principal) order, None)).
Proof.
  unfold ListStatementsByPrincipal. rewrite List_statementsLoop_spec.
  destruct (find (failsb principal) order) as [stmt|] eqn:E; [left | by right].
  apply find_some in E as [_ Hf]. unfold failsb in Hf.
  destruct (List_principalsLoop _ principal) as [err|]; [| done].
  by exists err.
Qed.

(** C7 (as amended). Let [o1] and [o2] be two orders in which the map of
    the in-memory store can be visited by two evaluations of the same
    request against the unchanged store. If the orders are the same the
    two results are identical. In any case the two evaluations both fail
    or both succeed, the two responses have the same effect, and a Decider
    is present in both or in neither. When storage succeeds and at most
    one stored Deny statement and at most one stored Allow statement
    decide the request, the two results are identical. *)
Theorem C7_repeated_evaluation (s : inMemoryStorage)
  (o1 o2 : list Statement.t) (req : Request.t) :
  rangeOrder s o1 ->
  rangeOrder s o2 ->
  (o1 = o2 ->
   Evaluate (NewEvaluator (ListStatementsByPrincipal o1)) req
   = Evaluate (NewEvaluator (ListStatementsByPrincipal o2)) req)
  /\ (is_Some (snd (Evaluate (NewEvaluator (ListStatementsByPrincipal o1)) req))
      <-> is_Some (snd (Evaluate (NewEvaluator (ListStatementsByPrincipal o2)) req)))
  /\ Response.Effect (fst (Evaluate (NewEvaluator (ListStatementsByPrincipal o1)) req))
     = Response.Effect (fst (Evaluate (NewEvaluator (ListStatementsByPrincipal o2)) req))
  /\ (is_Some (Response.Decider
                 (fst (Evaluate (NewEvaluator (ListStatementsByPrincipal o1)) req)))
      <-> is_Some (Response.Decider
                     (fst (Evaluate (NewEvaluator (ListStatementsByPrincipal o2)) req))))
  /\ (snd (Evaluate (NewEvaluator (ListStatementsByPrincipal o1)) req) = None ->
      (forall a b, a ∈ o1 -> b ∈ o1 ->
         denyDecides a req -> denyDecides b req -> a = b) ->
      (forall a b, a ∈ o1 -> b ∈ o1 ->
         allowDecides a req -> allowDecides b req -> a = b) ->
      Evaluate (NewEvaluator (ListStatementsByPrincipal o1)) req
      = Evaluate (NewEvaluator (ListStatementsByPrincipal o2)) req).
Proof.
  intros H1 H2.
  assert (o1 ≡ₚ o2) as Hp by (unfold rangeOrder in *; by rewrite H1, H2).
  split; [by intros -> |].
  pose proof (find_is_Some_perm (failsb (Request.Principal req)) o1 o2 Hp) as Hf.
  destruct (ListStatementsByPrincipal_cases o1 (Request.Principal req))
    as [(e1 & Hs1 & Hl1) | [Hn1 Hl1]];
  destruct (ListStatementsByPrincipal_cases o2 (Request.Principal req))
    as [(e2 & Hs2 & Hl2) | [Hn2 Hl2]].
  - rewrite (Evaluate_failed _ _ _ _ Hl1), (Evaluate_failed _ _ _ _ Hl2).
    cbn. by split_and!.
  - exfalso. rewrite Hn2 in Hf. apply Hf in Hs1. by destruct Hs1.
  - exfalso. rewrite Hn1 in Hf. apply Hf in Hs2. by destruct Hs2.
  - rewrite (Evaluate_ok _ _ _ Hl1), (Evaluate_ok _ _ _ Hl2). cbn [fst snd].
    pose proof (filter_perm (keptb (Request.Principal req)) o1 o2 Hp) as Hp'.
    destruct (Evaluate_statements_perm _ _ req Hp') as [He Hd].
    split_and!; try done.
    intros _ Hud Hua. f_equal.
    apply Evaluate_statements_unique; [done | |].
    + intros a b Ha Hb. apply list_elem_of_In, filter_In in Ha as [Ha _].
      apply list_elem_of_In, filter_In in Hb as [Hb _].
      apply Hud; by apply list_elem_of_In.
    + intros a b Ha Hb. apply list_elem_of_In, filter_In in Ha as [Ha _].
      apply list_elem_of_In, filter_In in Hb as [Hb _].
      apply Hua; by apply list_elem_of_In.
Qed.

(** The orders in which a store built by [SaveStatement] can be visited. *)
Lemma rangeOrder_empty : rangeOrder NewInMemoryStorage [].
Proof. unfold rangeOrder. cbn. by rewrite map_to_list_empty. Qed.

Lemma rangeOrder_save (s : inMemoryStorage) (order : list Statement.t)
  (stmt : Statement.t) :
  statements s !! Statement.ID stmt = None ->
  rangeOrder s order ->
  rangeOrder (fst (SaveStatement s stmt)) (stmt :: order).
Proof.
  unfold rangeOrder. cbn. intros Hfresh Ho.
  rewrite map_to_list_insert by done. cbn. by rewrite Ho.
Qed.

Lemma rangeOrder_perm (s : inMemoryStorage) (o1 o2 : list Statement.t) :
  o1 ≡ₚ o2 -> rangeOrder s o1 -> rangeOrder s o2.
Proof. unfold rangeOrder. by intros ->. Qed.

End StorageClaims.

(** ** The bare star *)

Section BareStar.
Context `{GoLibs}.
Hypothesis double_star_matches_all :
  forall name, fst (doublestar_Match "**" name) = true.

Lemma principalMatches_bare_star (pre post : list Principal) (name : Principal) :
  principalMatches (pre ++ "*" :: post) name = true.
Proof.
  induction pre as [|p pre IH]; cbn.
  - by rewrite double_star_matches_all.
  - rewrite IH. by destruct (fst _).
Qed.

Lemma actionMatches_bare_star (pre post : list ActionID) (name : ActionID) :
  actionMatches (pre ++ "*" :: post) name = true.
Proof.
  induction pre as [|p pre IH]; cbn.
  - by rewrite double_star_matches_all.
  - rewrite IH. by destruct (fst _).
Qed.

Lemma resourceMatches_bare_star (pre post : list Resource) (name : Resource) :
  resourceMatches (pre ++ "*" :: post) name = true.
Proof.
  induction pre as [|p pre IH]; cbn.
  - by rewrite double_star_matches_all.
  - rewrite IH. by destruct (fst _).
Qed.

End BareStar.

Lemma glob_double_star (name : list ascii) :
  Model.glob [Model.DoubleStar] name = true.
Proof.
  induction name as [|c name IH]; [done |].
  cbn in *. by rewrite IH.
Qed.

Lemma Model_double_star_matches_all (name : string) :
  fst (Model.Match "**" name) = true.
Proof. unfold Model.Match. cbn. apply glob_double_star. Qed.

(** * Closed examples *)

Section Examples.
Import Scenario.
#[local] Existing Instance Model.libs.

(** The patterns of the test suite and of section 8 of the specification,
    on the reference matcher. *)
Example glob_examples :
  fst (Model.Match "user:*" "user:123") = true /\
  fst (Model.Match "folders/*/documents/*" "folders/123/documents/456") = true /\
  fst (Model.Match "folders/*/documents/*" "folders/123/456") = false /\
  fst (Model.Match "secure/**" "secure/vault/data") = true /\
  fst (Model.Match "user:[0-9]*" "user:12345") = true /\
  fst (Model.Match "temp?" "temp1") = true /\
  fst (Model.Match "*" "users/mark") = false /\
  fst (Model.Match "**" "users/mark") = true /\
  Model.Match "[" "x" = (false, Some Model.ErrBadPattern).
Proof. vm_compute. repeat split. Qed.

(** Membership in a list that is written out. *)
Ltac in_list :=
  repeat first [apply list_elem_of_here | apply list_elem_of_further].

(** A property of every element of a list that is written out. *)
Ltac each_of Hin :=
  repeat (apply elem_of_cons in Hin as [-> | Hin]);
  [.. | by apply elem_of_nil in Hin].

(** Cases of [TestEvaluator_Evaluate]. *)
Example test_default_deny_no_statements :
  Evaluate (NewEvaluator (ListStatementsByPrincipal [])) req1 =
  (Response.mk EffectDeny
     "no applicable statements found, access denied by default" None, None).
Proof. reflexivity. Qed.

Example test_simple_allow :
  Evaluate (NewEvaluator (ListStatementsByPrincipal [allowRead])) req1 =
  (allowResponse allowRead, None)
  /\ Response.Decider (allowResponse allowRead) = Some "allow-read".
Proof. by vm_compute. Qed.

Example test_allow_skips_on_condition_error :
  Evaluate (NewEvaluator (ListStatementsByPrincipal [allowBadCond])) req1 =
  (Response.mk EffectDeny
     "no matching statement found, access denied by default" None, None).
Proof. by vm_compute. Qed.

(** [TestPrincipalResolver] and [TestExpandingEvaluator]. *)
Example test_principal_resolver :
  markResolver "users/mark"
  = (["users/mark"; "roles/moderator"; "roles/analyst"], None)
  /\ markResolver "users/unknown" = (["users/unknown"], None)
  /\ markResolver "roles/admin" = (["roles/admin"], None).
Proof. by vm_compute. Qed.

Example test_expanding_evaluator :
  Expanding_Evaluate invoiceEvaluator reqInvoice
  = (Response.mk EffectDeny "access denied for principal roles/analyst"
       (Some "principal_expansion:roles/analyst"), None)
  /\ Expanding_Evaluate invoiceEvaluator
       (Model.request "users/mark" "invoice.download" "invoices/999999")
     = (Response.mk EffectAllow "access allowed for principal roles/moderator"
          (Some "principal_expansion:roles/moderator"), None).
Proof. by vm_compute. Qed.

(** C1, counterexample to the claim as stated. The storage answer holds a
    Deny statement and an Allow statement that both match the request with
    all conditions true, after a Deny statement whose condition cannot be
    evaluated. The effect is Deny, but the Decider is the ID of the
    statement with the broken condition, which is not the ID of any Deny
    statement that matches with all its conditions true. *)
Lemma C1_counterexample :
  (denyRead ∈ [denyBadCond; denyRead; allowRead]
   /\ Statement.Effect denyRead = EffectDeny /\ fullyMatches denyRead req1)
  /\ (allowRead ∈ [denyBadCond; denyRead; allowRead]
      /\ Statement.Effect allowRead = EffectAllow
      /\ fullyMatches allowRead req1)
  /\ Response.Effect
       (fst (Evaluate (NewEvaluator (answer [denyBadCond; denyRead; allowRead]))
               req1)) = EffectDeny
  /\ Response.Decider
       (fst (Evaluate (NewEvaluator (answer [denyBadCond; denyRead; allowRead]))
               req1)) = Some "deny-bad-cond"
  /\ ~ (exists d,
          d ∈ [denyBadCond; denyRead; allowRead]
          /\ Statement.Effect d = EffectDeny
          /\ fullyMatches d req1
          /\ Response.Decider
               (fst (Evaluate
                       (NewEvaluator (answer [denyBadCond; denyRead; allowRead]))
                       req1)) = Some (Statement.ID d)).
Proof.
  split_and!.
  - in_list.
  - done.
  - by vm_compute.
  - in_list.
  - done.
  - by vm_compute.
  - by vm_compute.
  - by vm_compute.
  - intros (d & Hin & Heff & [_ Hcond] & Hdec).
    each_of Hin; vm_compute in Hcond, Hdec; congruence.
Qed.

(** C1, witness: the case Deny Overrides Allow of the test suite. *)
Lemma C1_witness :
  (answer [allowRead; denyRead] (Request.Principal req1)
   = ([allowRead; denyRead], None)
   /\ (exists d, d ∈ [allowRead; denyRead]
                 /\ Statement.Effect d = EffectDeny /\ fullyMatches d req1)
   /\ (exists a, a ∈ [allowRead; denyRead]
                 /\ Statement.Effect a = EffectAllow /\ fullyMatches a req1))
  /\ exists pre d post resp,
       [allowRead; denyRead] = pre ++ d :: post
       /\ denyDecides d req1
       /\ (forall x, x ∈ pre -> ~ denyDecides x req1)
       /\ Evaluate (NewEvaluator (answer [allowRead; denyRead])) req1
          = (resp, None)
       /\ Response.Effect resp = EffectDeny
       /\ Response.Decider resp = Some (Statement.ID d)
       /\ (fullyMatches d req1 -> resp = denyResponse d)
       /\ (forall stmts',
             stmts' ≡ₚ [allowRead; denyRead] ->
             Response.Effect (Evaluate_statements stmts' req1) = EffectDeny
             /\ is_Some (Response.Decider (Evaluate_statements stmts' req1))).
Proof.
  assert (exists d, d ∈ [allowRead; denyRead]
                    /\ Statement.Effect d = EffectDeny /\ fullyMatches d req1)
    as Hd.
  { exists denyRead. split_and!; [in_list | reflexivity |].
    split; vm_compute; reflexivity. }
  assert (exists a, a ∈ [allowRead; denyRead]
                    /\ Statement.Effect a = EffectAllow /\ fullyMatches a req1)
    as Ha.
  { exists allowRead. split_and!; [in_list | reflexivity |].
    split; vm_compute; reflexivity. }
  split; [split_and!; [reflexivity | exact Hd | exact Ha] |].
  exact (C1_deny_overrides_allow (H := Model.libs)
           (answer [allowRead; denyRead]) req1
           [allowRead; denyRead] eq_refl Hd Ha).
Defined.

(** C3, counterexample to the claim as stated. The user resolves to four
    principals; the wrapped evaluator gives an explicit Deny for the second
    and fails on the third. The wrapped evaluator is called three times,
    not four, and the merged result has a nil Decider although a resolved
    principal produced an explicit Deny. *)
Lemma C3_counterexample :
  threeRoles (Request.Principal reqInvoice)
  = (["users/mark"; "roles/analyst"; "roles/moderator"; "roles/admin"], None)
  /\ explicitDenyb
       (baseEvaluator abortingEvaluator (withPrincipal reqInvoice "roles/analyst"))
     = true
  /\ Expanding_calls abortingEvaluator reqInvoice
     = [withPrincipal reqInvoice "users/mark";
        withPrincipal reqInvoice "roles/analyst";
        withPrincipal reqInvoice "roles/moderator"]
  /\ Expanding_Evaluate abortingEvaluator reqInvoice
     = (Response.mk EffectDeny
          "evaluation error for principal roles/moderator: failed to list statements: database is down"
          None, None).
Proof. by vm_compute. Qed.

(** C3, witness: [TestExpandingEvaluator]. *)
Lemma C3_witness :
  (resolver invoiceEvaluator (Request.Principal reqInvoice)
   = (["users/mark"; "roles/moderator"; "roles/analyst"], None)
   /\ forall p, p ∈ ["users/mark"; "roles/moderator"; "roles/analyst"] ->
        snd (baseEvaluator invoiceEvaluator (withPrincipal reqInvoice p)) = None)
  /\ Expanding_calls invoiceEvaluator reqInvoice
     = [withPrincipal reqInvoice "users/mark";
        withPrincipal reqInvoice "roles/moderator";
        withPrincipal reqInvoice "roles/analyst"]
  /\ Expanding_Evaluate invoiceEvaluator reqInvoice
     = (Response.mk EffectDeny "access denied for principal roles/analyst"
          (Some "principal_expansion:roles/analyst"), None).
Proof.
  assert (resolver invoiceEvaluator (Request.Principal reqInvoice)
          = (["users/mark"; "roles/moderator"; "roles/analyst"], None)) as Hr
    by (vm_compute; reflexivity).
  assert (forall p, p ∈ ["users/mark"; "roles/moderator"; "roles/analyst"] ->
            snd (baseEvaluator invoiceEvaluator (withPrincipal reqInvoice p))
            = None) as Hok.
  { intros p Hin. each_of Hin; vm_compute; reflexivity. }
  split; [by split |].
  exact (C3_expansion_merge invoiceEvaluator reqInvoice _ Hr Hok).
Defined.

(** C4, witness: the case Deny on Condition Error of the test suite, after
    an Allow statement. *)
Lemma C4_witness :
  (answer [allowRead; denyBadCond] (Request.Principal req1)
   = ([allowRead] ++ denyBadCond :: [], None)
   /\ Statement.Effect denyBadCond = EffectDeny
   /\ structurallyMatches denyBadCond req1 = true
   /\ Statement.Conditions denyBadCond = [] ++ badCond :: []
   /\ (forall c', c' ∈ [] -> Condition_Evaluate c' req1 = (true, None))
   /\ conditionError badCond req1 "unexpected token"
   /\ forall d, d ∈ [allowRead] -> ~ denyDecides d req1)
  /\ Evaluate (NewEvaluator (answer [allowRead; denyBadCond])) req1
     = (Response.mk EffectDeny
          ("failed to evaluate condition for deny statement "
           +:+ strconv_Quote "deny-bad-cond" +:+ ": "
           +:+ "failed to evaluate condition "
           +:+ strconv_Quote "BadCond" +:+ ": " +:+ "unexpected token")
          (Some "deny-bad-cond"),
        None).
Proof.
  assert (forall c' : Condition.t,
            c' ∈ [] -> Condition_Evaluate c' req1 = (true, None)) as Hpre.
  { intros c' Hin. by apply elem_of_nil in Hin. }
  assert (conditionError badCond req1 "unexpected token") as Herr.
  { left. reflexivity. }
  assert (forall d, d ∈ [allowRead] -> ~ denyDecides d req1) as Hreach.
  { intros d Hin [Heff _]. each_of Hin. vm_compute in Heff. congruence. }
  split; [split_and!; try done; vm_compute; reflexivity |].
  exact (proj2 (C4_deny_condition_error_fails_closed (H := Model.libs)
                  (answer [allowRead; denyBadCond]) req1 [allowRead] []
                  denyBadCond [] [] badCond "unexpected token"
                  eq_refl eq_refl eq_refl eq_refl Hpre Herr) Hreach).
Defined.

(** C5, witness: the case Allow Skips on Condition Error of the test suite,
    followed by a sound Allow statement. *)
Lemma C5_witness :
  (answer [allowBadCond; allowRead] (Request.Principal req1)
   = ([] ++ allowBadCond :: [allowRead], None)
   /\ Statement.Effect allowBadCond = EffectAllow
   /\ structurallyMatches allowBadCond req1 = true
   /\ conditionsFail allowBadCond req1)
  /\ snd (Evaluate (NewEvaluator (answer [allowBadCond; allowRead])) req1) = None
  /\ Evaluate (NewEvaluator (answer [allowBadCond; allowRead])) req1
     = (Evaluate_statements [allowRead] req1, None)
  /\ Evaluate_statements [allowRead] req1 = allowResponse allowRead.
Proof.
  assert (conditionsFail allowBadCond req1) as Hfail.
  { unfold conditionsFail. eexists. vm_compute. reflexivity. }
  split; [split_and!; try done; vm_compute; reflexivity |].
  destruct (C5_allow_condition_error_skipped (H := Model.libs)
              (answer [allowBadCond; allowRead]) req1 [] [allowRead]
              allowBadCond eq_refl eq_refl eq_refl Hfail)
    as (_ & Hnil & Hskip & _ & _).
  split_and!; [exact Hnil | apply Hskip; discriminate | vm_compute; reflexivity].
Defined.

(** C6, witness: a storage that is down, a resolver that fails, and an
    expansion whose third call fails. *)
Lemma C6_witness :
  Evaluate (NewEvaluator downForModerator)
    (withPrincipal reqInvoice "roles/moderator")
  = (Response_zero, Some "failed to list statements: database is down")
  /\ Expanding_Evaluate
       (NewExpandingEvaluator (Evaluate (NewEvaluator downForModerator))
          unreachableResolver) reqInvoice
     = (Response.mk EffectDeny
          "failed to resolve principals: directory unavailable" None, None)
  /\ Expanding_Evaluate abortingEvaluator reqInvoice
     = (Response.mk EffectDeny
          "evaluation error for principal roles/moderator: failed to list statements: database is down"
          None, None).
Proof.
  destruct (C6_error_channels (H := Model.libs)) as (Hstorage & Hresolver & Hcall).
  split_and!.
  - exact (Hstorage downForModerator
             (withPrincipal reqInvoice "roles/moderator") [] "database is down"
             eq_refl).
  - exact (Hresolver
             (NewExpandingEvaluator (Evaluate (NewEvaluator downForModerator))
                unreachableResolver)
             reqInvoice [] "directory unavailable" eq_refl).
  - refine (Hcall abortingEvaluator reqInvoice ["users/mark"; "roles/analyst"]
              ["roles/admin"] "roles/moderator" Response_zero
              "failed to list statements: database is down" _ _ _).
    + vm_compute. reflexivity.
    + intros q Hin. each_of Hin; vm_compute; reflexivity.
    + vm_compute. reflexivity.
Defined.

(** C7, counterexample to the claim as stated. The store holds two Deny
    statements that both match the request. Both orders below are orders
    in which the map can be visited; the two evaluations report different
    Deciders and different messages. *)
Lemma C7_counterexample :
  rangeOrder twoDenyStore [denyRead; denyReadAgain]
  /\ rangeOrder twoDenyStore [denyReadAgain; denyRead]
  /\ Evaluate (NewEvaluator (ListStatementsByPrincipal [denyRead; denyReadAgain]))
       req1
     = (denyResponse denyRead, None)
  /\ Evaluate (NewEvaluator (ListStatementsByPrincipal [denyReadAgain; denyRead]))
       req1
     = (denyResponse denyReadAgain, None)
  /\ Response.Decider (denyResponse denyRead) = Some "deny-read"
  /\ Response.Decider (denyResponse denyReadAgain) = Some "deny-read-again"
  /\ Response.Message (denyResponse denyRead)
     <> Response.Message (denyResponse denyReadAgain).
Proof.
  assert (rangeOrder twoDenyStore [denyReadAgain; denyRead]) as Ho.
  { apply rangeOrder_save; [vm_compute; reflexivity |].
    apply rangeOrder_save; [vm_compute; reflexivity | apply rangeOrder_empty]. }
  split_and!; try (vm_compute; congruence).
  - apply (rangeOrder_perm _ _ _ (perm_swap _ _ _) Ho).
  - exact Ho.
Qed.

(** C7, witness: the same store and the same two orders. *)
Lemma C7_witness :
  (rangeOrder twoDenyStore [denyRead; denyReadAgain]
   /\ rangeOrder twoDenyStore [denyReadAgain; denyRead])
  /\ Response.Effect
       (fst (Evaluate
               (NewEvaluator (ListStatementsByPrincipal [denyRead; denyReadAgain]))
               req1))
     = Response.Effect
         (fst (Evaluate
                 (NewEvaluator (ListStatementsByPrincipal [denyReadAgain; denyRead]))
                 req1))
  /\ (is_Some (Response.Decider
                 (fst (Evaluate
                         (NewEvaluator
                            (ListStatementsByPrincipal [denyRead; denyReadAgain]))
                         req1)))
      <-> is_Some (Response.Decider
                     (fst (Evaluate
                             (NewEvaluator
                                (ListStatementsByPrincipal [denyReadAgain; denyRead]))
                             req1)))).
Proof.
  assert (rangeOrder twoDenyStore [denyReadAgain; denyRead]) as Ho2.
  { apply rangeOrder_save; [vm_compute; reflexivity |].
    apply rangeOrder_save; [vm_compute; reflexivity | apply rangeOrder_empty]. }
  assert (rangeOrder twoDenyStore [denyRead; denyReadAgain]) as Ho1.
  { apply (rangeOrder_perm _ _ _ (perm_swap _ _ _) Ho2). }
  split; [by split |].
  destruct (C7_repeated_evaluation (H := Model.libs) twoDenyStore
              [denyRead; denyReadAgain] [denyReadAgain; denyRead] req1 Ho1 Ho2)
    as (_ & _ & Heff & Hdec & _).
  by split.
Defined.

Lemma invoiceStore_order : rangeOrder invoiceStore [denyAnalyst; allowModerator].
Proof.
  apply rangeOrder_save; [vm_compute; reflexivity |].
  apply rangeOrder_save; [vm_compute; reflexivity | apply rangeOrder_empty].
Qed.

(** C8, counterexample to the claim as stated. The statements of
    [TestExpandingEvaluator] are saved without the Active flag, which is
    therefore false; the store returns the statement of the moderators when
    asked for that role. *)
Lemma C8_counterexample :
  rangeOrder invoiceStore [denyAnalyst; allowModerator]
  /\ ListStatementsByPrincipal [denyAnalyst; allowModerator] "roles/moderator"
     = ([allowModerator], None)
  /\ Statement.Active allowModerator = false.
Proof.
  split_and!; [apply invoiceStore_order | by vm_compute | done].
Qed.

(** C8, witness: the same store, none of whose patterns is a bare star. *)
Lemma C8_witness :
  (rangeOrder invoiceStore [denyAnalyst; allowModerator]
   /\ (forall stmt pat,
         stmt ∈ [denyAnalyst; allowModerator] ->
         pat ∈ Statement.Principals stmt ->
         snd (doublestar_Match pat "roles/moderator") = None)
   /\ (forall stmt pat,
         stmt ∈ [denyAnalyst; allowModerator] ->
         pat ∈ Statement.Principals stmt -> pat <> "*"))
  /\ exists result,
       ListStatementsByPrincipal [denyAnalyst; allowModerator] "roles/moderator"
       = (result, None)
       /\ result
          = List.filter
              (fun stmt =>
                 principalMatches (Statement.Principals stmt) "roles/moderator")
              [denyAnalyst; allowModerator]
       /\ (forall stmt,
             stmt ∈ result <->
             (exists id, statements invoiceStore !! id = Some stmt)
             /\ principalMatches (Statement.Principals stmt) "roles/moderator"
                = true)
       /\ (forall stmt stmt',
             stmt ∈ result ->
             (exists id, statements invoiceStore !! id = Some stmt') ->
             Statement.Principals stmt' = Statement.Principals stmt ->
             stmt' ∈ result).
Proof.
  assert (forall stmt pat,
            stmt ∈ [denyAnalyst; allowModerator] ->
            pat ∈ Statement.Principals stmt ->
            snd (doublestar_Match pat "roles/moderator") = None) as Hok.
  { intros stmt pat Hin Hpat.
    each_of Hin; cbn in Hpat; each_of Hpat; vm_compute; reflexivity. }
  assert (forall stmt pat,
            stmt ∈ [denyAnalyst; allowModerator] ->
            pat ∈ Statement.Principals stmt -> pat <> "*") as Hns.
  { intros stmt pat Hin Hpat.
    each_of Hin; cbn in Hpat; each_of Hpat; discriminate. }
  split; [split_and!; [apply invoiceStore_order | exact Hok | exact Hns] |].
  exact (C8_list_by_principal (H := Model.libs) invoiceStore
           [denyAnalyst; allowModerator] "roles/moderator"
           invoiceStore_order Hok Hns).
Defined.

(** C9. In statement evaluation a bare star among the patterns of a
    statement matches every candidate, for every matcher on which the
    double star matches everything, as it does on the reference matcher.
    The in-memory store, however, matches the stored pattern as written: a
    bare star does not match a principal with two path segments, the
    statement written for every principal is not returned, and the request
    gets the default denial for an empty answer, where the Decision
    Evaluator would deny by that statement had storage returned it. *)
Theorem C9_store_matches_bare_star_as_written :
  (forall (libs : GoLibs),
     (forall name, fst (doublestar_Match "**" name) = true) ->
     forall (pre post : list string) (name : string),
       principalMatches (pre ++ "*" :: post) name = true
       /\ actionMatches (pre ++ "*" :: post) name = true
       /\ resourceMatches (pre ++ "*" :: post) name = true)
  /\ (forall name, fst (Model.Match "**" name) = true)
  /\ Model.Match "*" "users/mark" = (false, None)
  /\ principalMatches ["*"] "users/mark" = true
  /\ rangeOrder denyAllStore [denyAll]
  /\ ListStatementsByPrincipal [denyAll] "users/mark" = ([], None)
  /\ Evaluate (NewEvaluator (ListStatementsByPrincipal [denyAll])) reqInvoice
     = (Response.mk EffectDeny
          "no applicable statements found, access denied by default" None,
        None)
  /\ Evaluate (NewEvaluator (answer [denyAll])) reqInvoice
     = (denyResponse denyAll, None).
Proof.
  split; [| split; [| split; [| split; [| split]]]].
  - intros libs Hall pre post name. split_and!.
    + by apply principalMatches_bare_star.
    + by apply actionMatches_bare_star.
    + by apply resourceMatches_bare_star.
  - apply Model_double_star_matches_all.
  - by vm_compute.
  - by vm_compute.
  - apply rangeOrder_save; [vm_compute; reflexivity | apply rangeOrder_empty].
  - by vm_compute.
Qed.

(** C10, counterexample to the claim as stated. The user resolves to two
    roles. The first is denied by a plain Deny statement; the second has a
    Deny statement whose condition cannot be evaluated, and the Decision
    Evaluator gives an explicit Deny for it. The merged result names the
    first role as Decider, not the role with the broken condition. *)
Lemma C10_counterexample :
  auditorFirst (Request.Principal reqInvoice)
  = (["users/mark"; "roles/auditor"; "roles/analyst"], None)
  /\ twoDenials "roles/analyst" = ([denyAnalystBadCond], None)
  /\ Statement.Effect denyAnalystBadCond = EffectDeny
  /\ structurallyMatches denyAnalystBadCond
       (withPrincipal reqInvoice "roles/analyst") = true
  /\ conditionsFail denyAnalystBadCond (withPrincipal reqInvoice "roles/analyst")
  /\ explicitDenyb
       (Evaluate (NewEvaluator twoDenials)
          (withPrincipal reqInvoice "roles/analyst")) = true
  /\ Expanding_Evaluate
       (NewExpandingEvaluator (Evaluate (NewEvaluator twoDenials)) auditorFirst)
       reqInvoice
     = (Response.mk EffectDeny "access denied for principal roles/auditor"
          (Some "principal_expansion:roles/auditor"), None).
Proof.
  split_and!; try by vm_compute.
  unfold conditionsFail. eexists. vm_compute. reflexivity.
Qed.

(** C10, witness: the moderators are allowed, the analysts are denied by a
    statement whose condition cannot be evaluated. *)
Lemma C10_witness :
  (markResolver (Request.Principal reqInvoice)
   = (["users/mark"; "roles/moderator"] ++ "roles/analyst" :: [], None)
   /\ moderatorAndBadAnalyst "roles/analyst" = ([denyAnalystBadCond], None)
   /\ denyAnalystBadCond ∈ [denyAnalystBadCond]
   /\ Statement.Effect denyAnalystBadCond = EffectDeny
   /\ structurallyMatches denyAnalystBadCond
        (withPrincipal reqInvoice "roles/analyst") = true
   /\ conditionsFail denyAnalystBadCond
        (withPrincipal reqInvoice "roles/analyst")
   /\ explicitAllowb
        (Evaluate (NewEvaluator moderatorAndBadAnalyst)
           (withPrincipal reqInvoice "roles/moderator")) = true)
  /\ Expanding_Evaluate
       (NewExpandingEvaluator (Evaluate (NewEvaluator moderatorAndBadAnalyst))
          markResolver) reqInvoice
     = (Response.mk EffectDeny "access denied for principal roles/analyst"
          (Some "principal_expansion:roles/analyst"), None).
Proof.
  assert (conditionsFail denyAnalystBadCond
            (withPrincipal reqInvoice "roles/analyst")) as Hfail.
  { unfold conditionsFail. eexists. vm_compute. reflexivity. }
  split; [split_and!; try done; try (vm_compute; reflexivity); in_list |].
  destruct (C10_condition_error_denies_expansion (H := Model.libs)
              moderatorAndBadAnalyst markResolver reqInvoice
              ["users/mark"; "roles/moderator"] [] "roles/analyst"
              [denyAnalystBadCond] denyAnalystBadCond
              eq_refl eq_refl (list_elem_of_here _ _) eq_refl eq_refl Hfail)
    as (_ & _ & _ & Hmerged).
  destruct Hmerged as (q & before & after & _ & _ & _ & _ & Hq & Hfirst).
  { intros q Hin. cbn in Hin. each_of Hin; vm_compute; reflexivity. }
  rewrite Hq, (Hfirst); [reflexivity |].
  intros q' Hin. each_of Hin; vm_compute; reflexivity.
Defined.

End Examples.

(** * Further properties *)

(** Membership in a list that is written out, and a property of each of
    its elements. *)
Ltac elem_here :=
  repeat first [apply list_elem_of_here | apply list_elem_of_further].

Ltac for_each Hin :=
  repeat (apply elem_of_cons in Hin as [-> | Hin]);
  [.. | by apply elem_of_nil in Hin].

(** ** The in-memory store as a map *)

Section StoreFacts.
Context `{GoLibs}.

Lemma storage_eq (s1 s2 : inMemoryStorage) :
  statements s1 = statements s2 -> s1 = s2.
Proof. destruct s1, s2. cbn. by intros ->. Qed.

Lemma wellKeyed_new : wellKeyed NewInMemoryStorage.
Proof. intros id stmt. cbn. by rewrite lookup_empty. Qed.

Lemma wellKeyed_save (s : inMemoryStorage) (stmt : Statement.t) :
  wellKeyed s -> wellKeyed (fst (SaveStatement s stmt)).
Proof.
  intros Hs id x. cbn. rewrite lookup_insert_Some.
  intros [[<- <-] | [_ Hx]]; [done | by apply Hs].
Qed.

Lemma wellKeyed_delete (s : inMemoryStorage) (id : string) :
  wellKeyed s -> wellKeyed (fst (DeleteStatement s id)).
Proof.
  intros Hs id' x. cbn. rewrite lookup_delete_Some. intros [_ Hx]. by apply Hs.
Qed.

Lemma List_principalsLoop_true (principals : list Principal)
  (principal : Principal) :
  List_principalsLoop principals principal = inr true <->
  exists pre pat post,
    principals = pre ++ pat :: post
    /\ (forall q, q ∈ pre -> doublestar_Match q principal = (false, None))
    /\ doublestar_Match pat principal = (true, None).
Proof.
  induction principals as [|p ps IH]; cbn.
  - split; [done | intros (pre & pat & post & Heq & _)]. by destruct pre.
  - destruct (doublestar_Match p principal) as [[|] [err|]] eqn:Hp.
    + split; [done |]. intros ([|q pre] & pat & post & [= <- ->] & Hpre & Hpat).
      * by rewrite Hp in Hpat.
      * rewrite Hpre in Hp; [done | left].
    + split; [intros _; exists [], p, ps; split_and!; [done | | done] |done].
      intros q Hq. by apply elem_of_nil in Hq.
    + split; [done |]. intros ([|q pre] & pat & post & [= <- ->] & Hpre & Hpat).
      * by rewrite Hp in Hpat.
      * rewrite Hpre in Hp; [done | left].
    + rewrite IH. split.
      * intros (pre & pat & post & -> & Hpre & Hpat).
        exists (p :: pre), pat, post. split_and!; [done | | done].
        intros q Hq. apply elem_of_cons in Hq as [-> | Hq]; auto.
      * intros ([|q pre] & pat & post & [= <- ->] & Hpre & Hpat).
        { by rewrite Hp in Hpat. }
        exists pre, pat, post. split_and!; [done | | done].
        intros q' Hq'. apply Hpre. by right.
Qed.

Lemma List_principalsLoop_error (principals : list Principal)
  (principal : Principal) (err : error) :
  List_principalsLoop principals principal = inl err <->
  exists pre pat post b,
    principals = pre ++ pat :: post
    /\ (forall q, q ∈ pre -> doublestar_Match q principal = (false, None))
    /\ doublestar_Match pat principal = (b, Some err).
Proof.
  induction principals as [|p ps IH]; cbn.
  - split; [done | intros (pre & pat & post & b & Heq & _)]. by destruct pre.
  - destruct (doublestar_Match p principal) as [[|] [e|]] eqn:Hp.
    + split.
      * intros [= ->]. exists [], p, ps, true. split_and!; [done | | done].
        intros q Hq. by apply elem_of_nil in Hq.
      * intros ([|q pre] & pat & post & b & [= <- ->] & Hpre & Hpat).
        { rewrite Hp in Hpat. by simplify_eq. }
        rewrite Hpre in Hp; [done | left].
    + split; [done |].
      intros ([|q pre] & pat & post & b & [= <- ->] & Hpre & Hpat).
      * by rewrite Hp in Hpat.
      * rewrite Hpre in Hp; [done | left].
    + split.
      * intros [= ->]. exists [], p, ps, false. split_and!; [done | | done].
        intros q Hq. by apply elem_of_nil in Hq.
      * intros ([|q pre] & pat & post & b & [= <- ->] & Hpre & Hpat).
        { rewrite Hp in Hpat. by simplify_eq. }
        rewrite Hpre in Hp; [done | left].
    + rewrite IH. split.
      * intros (pre & pat & post & b & -> & Hpre & Hpat).
        exists (p :: pre), pat, post, b. split_and!; [done | | done].
        intros q Hq. apply elem_of_cons in Hq as [-> | Hq]; auto.
      * intros ([|q pre] & pat & post & b & [= <- ->] & Hpre & Hpat).
        { by rewrite Hp in Hpat. }
        exists pre, pat, post, b. split_and!; [done | | done].
        intros q' Hq'. apply Hpre. by right.
Qed.

(** What [ListStatementsByPrincipal] returns was visited and kept. *)
Lemma List_result_kept (order : list Statement.t) (principal : Principal)
  (x : Statement.t) :
  x ∈ fst (ListStatementsByPrincipal order principal) ->
  x ∈ order /\ keptb principal x = true.
Proof.
  destruct (ListStatementsByPrincipal_cases order principal)
    as [(err & _ & ->) | [_ ->]]; cbn.
  - intros Hx. by apply elem_of_nil in Hx.
  - rewrite list_elem_of_In, filter_In, <- list_elem_of_In. done.
Qed.

Lemma NoDup_map_filter {A B : Type} (f : A -> B) (g : A -> bool) (l : list A) :
  NoDup (map f l) -> NoDup (map f (List.filter g l)).
Proof.
  induction l as [|a l IH]; cbn; [done |].
  rewrite NoDup_cons. intros [Ha Hl]. destruct (g a); cbn; [| by apply IH].
  apply NoDup_cons. split; [| by apply IH].
  intros Hin. apply Ha. apply list_elem_of_fmap in Hin as (y & Hy & Hin).
  apply list_elem_of_fmap. exists y. split; [done |].
  apply list_elem_of_In, filter_In in Hin as [Hin _]. by apply list_elem_of_In.
Qed.

Lemma rangeOrder_ids (s : inMemoryStorage) (order : list Statement.t) :
  wellKeyed s -> rangeOrder s order -> NoDup (map Statement.ID order).
Proof.
  unfold rangeOrder. intros Hs ->.
  assert (map Statement.ID (map_to_list (statements s)).*2
          = (map_to_list (statements s)).*1) as ->.
  { assert (forall kv, kv ∈ map_to_list (statements s) ->
              Statement.ID (snd kv) = fst kv) as Hk.
    { intros [k v] Hkv. apply elem_of_map_to_list in Hkv. by apply Hs. }
    induction (map_to_list (statements s)) as [|kv l IH]; cbn; [done |].
    rewrite (Hk kv) by left. f_equal. apply IH. intros kv' Hin. apply Hk. by right. }
  apply NoDup_fst_map_to_list.
Qed.

End StoreFacts.

Section StoreProperties.
Context `{GoLibs}.

(** X1. [SaveStatement] never fails; [GetStatement] then returns the saved
    statement under its ID and what it returned before under every other
    ID; saving again under the same ID leaves only the last statement. *)
Theorem store_save_get (s : inMemoryStorage) (stmt : Statement.t) :
  snd (SaveStatement s stmt) = None
  /\ GetStatement (fst (SaveStatement s stmt)) (Statement.ID stmt)
     = (Some stmt, None)
  /\ (forall id, id <> Statement.ID stmt ->
        GetStatement (fst (SaveStatement s stmt)) id = GetStatement s id)
  /\ (forall old, Statement.ID old = Statement.ID stmt ->
        fst (SaveStatement (fst (SaveStatement s old)) stmt)
        = fst (SaveStatement s stmt)).
Proof.
  unfold GetStatement, SaveStatement. cbn. split_and!.
  - done.
  - by rewrite lookup_insert_eq.
  - intros id Hne. by rewrite lookup_insert_ne.
  - intros old ->. apply storage_eq. cbn. apply insert_insert_eq.
Qed.

(** X2. [DeleteStatement] never fails; [GetStatement] then returns neither a
    statement nor an error for the deleted ID and is unchanged for the
    others; deleting an ID that is not stored changes nothing, and deleting
    a statement saved under a fresh ID restores the store. *)
Theorem store_delete (s : inMemoryStorage) (id : string) :
  snd (DeleteStatement s id) = None
  /\ GetStatement (fst (DeleteStatement s id)) id = (None, None)
  /\ (forall id', id' <> id ->
        GetStatement (fst (DeleteStatement s id)) id' = GetStatement s id')
  /\ (GetStatement s id = (None, None) -> fst (DeleteStatement s id) = s)
  /\ (forall stmt,
        Statement.ID stmt = id ->
        GetStatement s id = (None, None) ->
        fst (DeleteStatement (fst (SaveStatement s stmt)) id) = s).
Proof.
  unfold GetStatement, DeleteStatement, SaveStatement. cbn. split_and!.
  - done.
  - by rewrite lookup_delete_eq.
  - intros id' Hne. by rewrite lookup_delete_ne.
  - intros [= Hid]. apply storage_eq. cbn. by apply delete_id.
  - intros stmt -> [= Hid]. apply storage_eq. cbn.
    by rewrite delete_insert_eq, delete_id.
Qed.

(** X3. Whatever sequence of [SaveStatement] and [DeleteStatement] built
    the store, every stored statement is kept under its own ID: a statement
    returned by [GetStatement] has the ID that was asked for. *)
Theorem store_keys_are_ids (ops : list storeOp) :
  wellKeyed (applyOps ops)
  /\ forall id stmt,
       GetStatement (applyOps ops) id = (Some stmt, None) ->
       Statement.ID stmt = id.
Proof.
  assert (wellKeyed (applyOps ops)) as Hk.
  { unfold applyOps. generalize wellKeyed_new.
    generalize NewInMemoryStorage as s. induction ops as [|op ops IH]; [done |].
    intros s Hs. cbn. apply IH. destruct op; cbn.
    - by apply wellKeyed_save.
    - by apply wellKeyed_delete. }
  split; [done |]. intros id stmt [= Hid]. by apply Hk.
Qed.

(** X4. In a store whose statements are kept under their IDs, after
    [DeleteStatement] no returned statement has the deleted ID, and after
    [SaveStatement] the only returned statement with the saved ID is the
    saved one, in whatever order the map is visited. *)
Theorem list_after_update (s : inMemoryStorage) (order : list Statement.t)
  (principal : Principal) :
  wellKeyed s ->
  (forall id,
     rangeOrder (fst (DeleteStatement s id)) order ->
     forall x, x ∈ fst (ListStatementsByPrincipal order principal) ->
               Statement.ID x <> id)
  /\ (forall stmt,
        rangeOrder (fst (SaveStatement s stmt)) order ->
        forall x, x ∈ fst (ListStatementsByPrincipal order principal) ->
                  Statement.ID x = Statement.ID stmt -> x = stmt).
Proof.
  intros Hs. split.
  - intros id Ho x Hx. apply List_result_kept in Hx as [Hx _].
    apply (rangeOrder_elem _ _ _ Ho) in Hx as (key & Hkey). cbn in Hkey.
    apply lookup_delete_Some in Hkey as [Hne Hkey].
    by rewrite (Hs _ _ Hkey).
  - intros stmt Ho x Hx Hid. apply List_result_kept in Hx as [Hx _].
    apply (rangeOrder_elem _ _ _ Ho) in Hx as (key & Hkey). cbn in Hkey.
    apply lookup_insert_Some in Hkey as [[_ ->] | [Hne Hkey]]; [done |].
    rewrite <- Hid, (Hs _ _ Hkey) in Hne. done.
Qed.

(** X5. In a store whose statements are kept under their IDs, the
    statements returned by [ListStatementsByPrincipal] have pairwise
    distinct IDs. *)
Theorem list_distinct_ids (s : inMemoryStorage) (order : list Statement.t)
  (principal : Principal) :
  wellKeyed s ->
  rangeOrder s order ->
  NoDup (map Statement.ID (fst (ListStatementsByPrincipal order principal))).
Proof.
  intros Hs Ho.
  destruct (ListStatementsByPrincipal_cases order principal)
    as [(err & _ & ->) | [_ ->]]; cbn.
  - constructor.
  - apply NoDup_map_filter. by apply (rangeOrder_ids s).
Qed.

(** X6. [ListStatementsByPrincipal] fails exactly when some stored
    statement has a pattern on which the matcher reports an error before
    any of its patterns matched, whatever the order of the visit; it then
    returns no statement. A pattern in error that comes after a matching
    pattern of the same statement is never looked at. *)
Theorem list_error_iff (s : inMemoryStorage) (order : list Statement.t)
  (principal : Principal) :
  rangeOrder s order ->
  (is_Some (snd (ListStatementsByPrincipal order principal)) <->
   exists id stmt pre pat post b err,
     statements s !! id = Some stmt
     /\ Statement.Principals stmt = pre ++ pat :: post
     /\ (forall q, q ∈ pre -> doublestar_Match q principal = (false, None))
     /\ doublestar_Match pat principal = (b, Some err))
  /\ (is_Some (snd (ListStatementsByPrincipal order principal)) ->
      fst (ListStatementsByPrincipal order principal) = []).
Proof.
  intros Ho.
  assert (forall stmt, failsb principal stmt = true <->
            exists pre pat post b err,
              Statement.Principals stmt = pre ++ pat :: post
              /\ (forall q, q ∈ pre -> doublestar_Match q principal = (false, None))
              /\ doublestar_Match pat principal = (b, Some err)) as Hfails.
  { intros stmt. unfold failsb.
    destruct (List_principalsLoop _ principal) as [err|b] eqn:E.
    - split; [intros _ | done].
      apply List_principalsLoop_error in E as (pre & pat & post & b & ?).
      by exists pre, pat, post, b, err.
    - split; [done |]. intros (pre & pat & post & b' & err & Hp).
      assert (List_principalsLoop (Statement.Principals stmt) principal = inl err)
        as E' by (apply List_principalsLoop_error; by exists pre, pat, post, b').
      by rewrite E in E'. }
  destruct (ListStatementsByPrincipal_cases order principal)
    as [(err & Hsome & ->) | [Hnone ->]]; cbn.
  - split; [| done]. split; [intros _ | by eauto].
    apply find_is_Some_iff in Hsome as (stmt & Hin & Hf).
    apply (rangeOrder_elem _ _ _ Ho) in Hin as (id & Hid).
    apply Hfails in Hf as (pre & pat & post & b & e & ?).
    by exists id, stmt, pre, pat, post, b, e.
  - split; [| by intros [? ?]]. split; [by intros [? ?] |].
    intros (id & stmt & pre & pat & post & b & e & Hid & Hp).
    assert (failsb principal stmt = true) as Hf
      by (apply Hfails; by exists pre, pat, post, b, e).
    rewrite find_none_iff in Hnone. rewrite Hnone in Hf; [done |].
    apply (rangeOrder_elem _ _ _ Ho). by exists id.
Qed.

End StoreProperties.

(** ** The Decision Evaluator *)

Section EvaluatorFacts.
Context `{GoLibs}.

Lemma principalMatches_elem (principals : list Principal) (pat : Principal)
  (principal : Principal) :
  pat ∈ principals ->
  fst (doublestar_Match (enhancePattern pat) principal) = true ->
  principalMatches principals principal = true.
Proof.
  intros Hin Hm. induction principals as [|p ps IH]; cbn [principalMatches].
  - by apply elem_of_nil in Hin.
  - apply elem_of_cons in Hin as [<- | Hin].
    + by rewrite Hm.
    + rewrite IH by done.
      by destruct (doublestar_Match (enhancePattern p) principal) as [[|] ?].
Qed.

(** The three pattern loops are one search for a matching pattern. *)
Lemma principalMatches_existsb (l : list string) (name : string) :
  principalMatches l name
  = existsb (fun pat => fst (doublestar_Match (enhancePattern pat) name)) l.
Proof.
  induction l as [|p l IH]; cbn [principalMatches existsb]; [done |].
  rewrite IH. by destruct (doublestar_Match (enhancePattern p) name) as [[|] ?].
Qed.

Lemma actionMatches_existsb (l : list string) (name : string) :
  actionMatches l name
  = existsb (fun pat => fst (doublestar_Match (enhancePattern pat) name)) l.
Proof.
  induction l as [|p l IH]; cbn [actionMatches existsb]; [done |].
  rewrite IH. by destruct (doublestar_Match (enhancePattern p) name) as [[|] ?].
Qed.

Lemma resourceMatches_existsb (l : list string) (name : string) :
  resourceMatches l name
  = existsb (fun pat => fst (doublestar_Match (enhancePattern pat) name)) l.
Proof.
  induction l as [|p l IH]; cbn [resourceMatches existsb]; [done |].
  rewrite IH. by destruct (doublestar_Match (enhancePattern p) name) as [[|] ?].
Qed.

Lemma existsb_perm {A : Type} (f : A -> bool) (l1 l2 : list A) :
  l1 ≡ₚ l2 -> existsb f l1 = existsb f l2.
Proof.
  induction 1 as [|x l1 l2 _ IH|x y l|l1 l2 l3 _ IH1 _ IH2]; cbn.
  - done.
  - by rewrite IH.
  - by destruct (f x), (f y).
  - by etransitivity.
Qed.

Lemma allConditionsMet_true (cs : list Condition.t) (req : Request.t) :
  allConditionsMet cs req = (true, None) <->
  forall c, c ∈ cs -> Condition_Evaluate c req = (true, None).
Proof.
  induction cs as [|c cs IH]; cbn.
  - split; [intros _ c Hc; by apply elem_of_nil in Hc | done].
  - destruct (Condition_Evaluate c req) as [[|] [e|]] eqn:Hc; cbn.
    + split; [done | intros Hall]. specialize (Hall c (list_elem_of_here _ _)).
      by rewrite Hc in Hall.
    + rewrite IH. split.
      * intros Hall c' Hc'. apply elem_of_cons in Hc' as [-> | Hc']; auto.
      * intros Hall c' Hc'. apply Hall. by right.
    + split; [done | intros Hall]. specialize (Hall c (list_elem_of_here _ _)).
      by rewrite Hc in Hall.
    + split; [done | intros Hall]. specialize (Hall c (list_elem_of_here _ _)).
      by rewrite Hc in Hall.
Qed.

Lemma allConditionsMet_unmet (cpre cpost : list Condition.t) (c : Condition.t)
  (req : Request.t) :
  (forall c', c' ∈ cpre -> Condition_Evaluate c' req = (true, None)) ->
  Condition_Evaluate c req = (false, None) ->
  allConditionsMet (cpre ++ c :: cpost) req = (false, None).
Proof.
  intros Hpre Hc. induction cpre as [|c' cpre IH]; cbn.
  - by rewrite Hc.
  - rewrite (Hpre c') by left. cbn. apply IH. intros c'' Hin. apply Hpre. by right.
Qed.

(** An error of [allConditionsMet] comes from the first condition that is
    not met. *)
Lemma allConditionsMet_error_inv (cs : list Condition.t) (req : Request.t)
  (err : error) :
  snd (allConditionsMet cs req) = Some err ->
  exists cpre c cpost e0,
    cs = cpre ++ c :: cpost
    /\ (forall c', c' ∈ cpre -> Condition_Evaluate c' req = (true, None))
    /\ snd (Condition_Evaluate c req) = Some e0
    /\ err = "failed to evaluate condition "
             +:+ strconv_Quote (Condition.Name c) +:+ ": " +:+ e0.
Proof.
  induction cs as [|c cs IH]; cbn; [done |].
  destruct (Condition_Evaluate c req) as [[|] [e|]] eqn:Hc; cbn.
  - intros [= <-]. exists [], c, cs, e. rewrite Hc. split_and!; try done.
    intros c' Hc'. by apply elem_of_nil in Hc'.
  - intros Herr. destruct (IH Herr) as (cpre & c0 & cpost & e0 & -> & Hpre & He & ->).
    exists (c :: cpre), c0, cpost, e0. split_and!; try done.
    intros c' Hc'. apply elem_of_cons in Hc' as [-> | Hc']; auto.
  - intros [= <-]. exists [], c, cs, e. rewrite Hc. split_and!; try done.
    intros c' Hc'. by apply elem_of_nil in Hc'.
  - done.
Qed.

Lemma not_decides_iff (s : Statement.t) (req : Request.t) :
  ~ decides s req <->
  denyDecidesb req s = false /\ allowDecidesb req s = false.
Proof.
  split; [apply decides_false |]. intros [Hd Ha] [Hs | Hs].
  - apply denyDecidesb_spec in Hs. by rewrite Hd in Hs.
  - apply allowDecidesb_spec in Hs. by rewrite Ha in Hs.
Qed.

Lemma no_match_not_decides (s : Statement.t) (req : Request.t) :
  statementMatches s req = (false, None) -> ~ decides s req.
Proof.
  intros Hs. apply not_decides_iff. unfold denyDecidesb, allowDecidesb.
  rewrite Hs. by rewrite !andb_false_r.
Qed.

Lemma filterStatementsByEffect_filter (stmts : list Statement.t) (eff : Effect) :
  filterStatementsByEffect stmts eff
  = List.filter (fun s => String.eqb (Statement.Effect s) eff) stmts.
Proof. induction stmts as [|s l IH]; cbn; [done |]. by rewrite IH. Qed.

End EvaluatorFacts.

Section EvaluatorProperties.
Context `{GoLibs}.

(** X7. With the in-memory store, whose statements are kept under their
    IDs, the Decider of a response leads back to the statement that
    decided: [GetStatement] on the Decider returns a stored statement that
    decides the request and has the effect of the response. *)
Theorem decider_is_stored (s : inMemoryStorage) (order : list Statement.t)
  (req : Request.t) (id : string) :
  wellKeyed s ->
  rangeOrder s order ->
  Response.Decider
    (fst (Evaluate (NewEvaluator (ListStatementsByPrincipal order)) req))
  = Some id ->
  exists stmt,
    GetStatement s id = (Some stmt, None)
    /\ decides stmt req
    /\ Response.Effect
         (fst (Evaluate (NewEvaluator (ListStatementsByPrincipal order)) req))
       = Statement.Effect stmt.
Proof.
  intros Hs Ho Hd.
  destruct (Evaluate_Decider (NewEvaluator (ListStatementsByPrincipal order)) req)
    as [_ Hid].
  destruct (Hid id Hd) as (stmts & stmt & Hl & Hin & Hdec & <- & Heff).
  cbn in Hl. exists stmt. split_and!; [| done | done].
  assert (stmt ∈ fst (ListStatementsByPrincipal order (Request.Principal req)))
    as Hin' by by rewrite Hl.
  apply List_result_kept in Hin' as [Hin' _].
  apply (rangeOrder_elem _ _ _ Ho) in Hin' as (key & Hkey).
  unfold GetStatement. by rewrite (Hs _ _ Hkey), Hkey.
Qed.

(** X8. On a matcher for which the double star matches everything, every
    statement returned by the in-memory store passes the principal check of
    statement evaluation: the store never returns a statement that the
    Decision Evaluator then rejects for its principal patterns. *)
Theorem stored_statements_pass_principal_check (order : list Statement.t)
  (principal : Principal) (x : Statement.t) :
  (forall name, fst (doublestar_Match "**" name) = true) ->
  x ∈ fst (ListStatementsByPrincipal order principal) ->
  principalMatches (Statement.Principals x) principal = true.
Proof.
  intros Hall Hx. apply List_result_kept in Hx as [_ Hk].
  unfold keptb in Hk.
  destruct (List_principalsLoop _ principal) as [e|[|]] eqn:E; try done.
  apply List_principalsLoop_true in E as (pre & pat & post & Heq & _ & Hpat).
  apply (principalMatches_elem _ pat).
  - rewrite Heq. apply elem_of_app. right. left.
  - unfold enhancePattern. destruct (String.eqb pat "*"); [apply Hall |].
    by rewrite Hpat.
Qed.

(** X9. [Evaluate] answers Allow exactly when storage succeeded, no
    returned Deny statement decides the request (none matches with its
    conditions true or failing) and some returned Allow statement matches
    with all its conditions true; the response then is the one of the
    first such Allow statement. *)
Theorem evaluate_allow_iff (storage : Storage) (req : Request.t) :
  (Response.Effect (fst (Evaluate (NewEvaluator storage) req)) = EffectAllow <->
   exists stmts,
     storage (Request.Principal req) = (stmts, None)
     /\ (forall d, d ∈ stmts -> ~ denyDecides d req)
     /\ exists a, a ∈ stmts /\ allowDecides a req)
  /\ (Response.Effect (fst (Evaluate (NewEvaluator storage) req)) = EffectAllow ->
      exists pre a post,
        storage (Request.Principal req) = (pre ++ a :: post, None)
        /\ allowDecides a req
        /\ (forall x, x ∈ pre -> ~ allowDecides x req)
        /\ Evaluate (NewEvaluator storage) req = (allowResponse a, None)).
Proof.
  destruct (storage (Request.Principal req)) as [stmts [err|]] eqn:Hst.
  { rewrite (Evaluate_failed _ _ _ _ Hst). cbn.
    split; [split; [done | by intros (? & [=] & _)] | done]. }
  rewrite (Evaluate_ok _ _ _ Hst). cbn [fst].
  destruct (find (denyDecidesb req) stmts) as [d|] eqn:Hd.
  { rewrite (Evaluate_statements_deny _ _ _ Hd).
    destruct (denyOutcome_Effect req d) as [-> _].
    split; [split; [done |] | done].
    intros (? & [= <-] & Hnone & _). apply find_some in Hd as [Hin Hd].
    apply denyDecidesb_spec in Hd. apply list_elem_of_In in Hin.
    by destruct (Hnone d Hin). }
  destruct (find (allowDecidesb req) stmts) as [a|] eqn:Ha.
  { rewrite (Evaluate_statements_allow _ _ _ Hd Ha). cbn. split.
    - split; [intros _ | done]. exists stmts. split_and!; [done | |].
      + intros x Hx Hdx. apply denyDecidesb_spec in Hdx.
        rewrite find_none_iff in Hd. by rewrite (Hd x Hx) in Hdx.
      + apply find_some in Ha as [Hin Ha]. exists a.
        split; [by apply list_elem_of_In | by apply allowDecidesb_spec].
    - intros _. apply find_first in Ha as (pre & post & -> & Hfa & Hpre).
      exists pre, a, post. split_and!; [done | by apply allowDecidesb_spec | | done].
      intros x Hx Hax. apply allowDecidesb_spec in Hax.
      by rewrite (Hpre x Hx) in Hax. }
  assert (Response.Effect (Evaluate_statements stmts req) = EffectDeny) as He.
  { rewrite Evaluate_statements_find, Hd, Ha. by destruct stmts. }
  rewrite He. split; [split; [done |] | done].
  intros (? & [= <-] & _ & a & Hin & Haa). apply allowDecidesb_spec in Haa.
  rewrite find_none_iff in Ha. by rewrite (Ha a Hin) in Haa.
Qed.

(** X10. A statement that does not decide the request has no influence on
    the response as long as other statements remain; when it is the only
    one, the response is the default denial for no matching statement. *)
Theorem evaluate_ignores_idle_statement (pre post : list Statement.t)
  (s : Statement.t) (req : Request.t) :
  ~ decides s req ->
  Evaluate_statements (pre ++ s :: post) req
  = match pre ++ post with
    | [] =>
        Response.mk EffectDeny
          "no matching statement found, access denied by default" None
    | _ :: _ => Evaluate_statements (pre ++ post) req
    end.
Proof.
  intros Hn. apply decides_false in Hn as [Hd Ha].
  rewrite !Evaluate_statements_find.
  rewrite (find_skip _ _ _ _ Hd), (find_skip _ _ _ _ Ha).
  destruct pre as [|p pre]; [destruct post |]; done.
Qed.

(** X11. A statement one of whose pattern lists is empty matches no
    request: [statementMatches] returns false without an error, even when
    its conditions cannot be evaluated, and the statement never decides. *)
Theorem empty_pattern_list_never_matches (s : Statement.t) (req : Request.t) :
  Statement.Principals s = [] \/ Statement.Actions s = []
  \/ Statement.Resources s = [] ->
  statementMatches s req = (false, None) /\ ~ decides s req.
Proof.
  intros Hempty.
  assert (statementMatches s req = (false, None)) as Hs.
  { rewrite statementMatches_unfold. unfold structurallyMatches.
    destruct Hempty as [-> | [-> | ->]]; cbn; rewrite ?andb_false_r; done. }
  split; [done | by apply no_match_not_decides].
Qed.

(** X12. An error of [statementMatches] is never an error of the matcher:
    it arises only when the statement matches structurally, it comes with
    the result false, and it is the error of the first condition that
    fails, the conditions before it being met, wrapped with the name of
    that condition. *)
Theorem statementMatches_error_is_condition_error (s : Statement.t)
  (req : Request.t) (err : error) :
  snd (statementMatches s req) = Some err ->
  structurallyMatches s req = true
  /\ fst (statementMatches s req) = false
  /\ exists cpre c cpost e0,
       Statement.Conditions s = cpre ++ c :: cpost
       /\ (forall c', c' ∈ cpre -> Condition_Evaluate c' req = (true, None))
       /\ conditionError c req e0
       /\ err = "failed to evaluate condition "
                +:+ strconv_Quote (Condition.Name c) +:+ ": " +:+ e0.
Proof.
  rewrite statementMatches_unfold.
  destruct (structurallyMatches s req); [| done].
  destruct (allConditionsMet _ req) as [b [e|]] eqn:Hc; cbn; [| done].
  intros [= ->]. split_and!; try done.
  assert (snd (allConditionsMet (Statement.Conditions s) req) = Some err) as He
    by by rewrite Hc.
  apply allConditionsMet_error_inv in He
    as (cpre & c & cpost & e0 & Heq & Hpre & He0 & ->).
  exists cpre, c, cpost, e0. split_and!; try done.
  by apply Condition_Evaluate_error.
Qed.

(** X13. The conditions of a statement are a conjunction evaluated from
    left to right: the result is true without error exactly when every
    condition evaluates to true; the first condition that evaluates to
    false stops the evaluation with false and no error, whatever the later
    conditions are, even ones that cannot be evaluated; and true never
    comes with an error. *)
Theorem allConditionsMet_conjunction (cs : list Condition.t) (req : Request.t) :
  (allConditionsMet cs req = (true, None) <->
   forall c, c ∈ cs -> Condition_Evaluate c req = (true, None))
  /\ (forall cpre c cpost,
        cs = cpre ++ c :: cpost ->
        (forall c', c' ∈ cpre -> Condition_Evaluate c' req = (true, None)) ->
        Condition_Evaluate c req = (false, None) ->
        allConditionsMet cs req = (false, None))
  /\ (fst (allConditionsMet cs req) = true ->
      snd (allConditionsMet cs req) = None).
Proof.
  split_and!.
  - apply allConditionsMet_true.
  - intros cpre c cpost -> Hpre Hc. by apply allConditionsMet_unmet.
  - destruct (allConditionsMet cs req) as [b [e|]] eqn:E; [| done].
    apply allConditionsMet_error in E. by subst b.
Qed.

(** X14. A condition whose expression evaluates to a value that is not a
    boolean counts as not met, without error; a statement with such a
    condition after conditions that are met never decides a request, be it
    a Deny statement. *)
Theorem non_boolean_condition_is_unmet (s : Statement.t) (req : Request.t)
  (cpre cpost : list Condition.t) (c : Condition.t) (program : expr_Program) :
  expr_Compile (Condition.Expression c) = inr program ->
  expr_Run program req = inr AnyOther ->
  Statement.Conditions s = cpre ++ c :: cpost ->
  (forall c', c' ∈ cpre -> Condition_Evaluate c' req = (true, None)) ->
  Condition_Evaluate c req = (false, None)
  /\ statementMatches s req = (false, None)
  /\ ~ decides s req.
Proof.
  intros Hcomp Hrun Hcs Hpre.
  assert (Condition_Evaluate c req = (false, None)) as Hc
    by (unfold Condition_Evaluate; by rewrite Hcomp, Hrun).
  assert (statementMatches s req = (false, None)) as Hs.
  { rewrite statementMatches_unfold, Hcs.
    rewrite (allConditionsMet_unmet _ _ _ _ Hpre Hc).
    by destruct (structurallyMatches s req). }
  split_and!; [done | done | by apply no_match_not_decides].
Qed.

(** X15. A denial by a Deny statement survives any addition of
    statements: if a Deny statement of a list decides the request, then for
    every list that contains the statements of the first the effect is
    Deny and the Decider is the ID of a Deny statement that decides. *)
Theorem deny_survives_more_statements (stmts stmts' : list Statement.t)
  (req : Request.t) :
  (exists d, d ∈ stmts /\ denyDecides d req) ->
  (forall x, x ∈ stmts -> x ∈ stmts') ->
  Response.Effect (Evaluate_statements stmts' req) = EffectDeny
  /\ exists d',
       d' ∈ stmts' /\ denyDecides d' req
       /\ Response.Decider (Evaluate_statements stmts' req)
          = Some (Statement.ID d').
Proof.
  intros (d & Hin & Hd) Hsub.
  assert (is_Some (find (denyDecidesb req) stmts')) as [d' Hd'].
  { apply find_is_Some_iff. exists d. split; [by apply Hsub |].
    by apply denyDecidesb_spec. }
  rewrite (Evaluate_statements_deny _ _ _ Hd').
  destruct (denyOutcome_Effect req d') as [-> ->]. split; [done |].
  apply find_some in Hd' as [Hin' Hdd]. exists d'.
  split_and!; [by apply list_elem_of_In | by apply denyDecidesb_spec | done].
Qed.

(** X16. Statements whose effect is neither of the two effect constants
    (the comparison is exact, so also a differently capitalised effect) are
    left out of both scans: an answer of storage made of such statements
    only gives the default denial for no matching statement. *)
Theorem unknown_effect_is_ignored (stmts : list Statement.t) (req : Request.t) :
  stmts <> [] ->
  (forall s, s ∈ stmts ->
     Statement.Effect s <> EffectAllow /\ Statement.Effect s <> EffectDeny) ->
  filterStatementsByEffect stmts EffectDeny = []
  /\ filterStatementsByEffect stmts EffectAllow = []
  /\ Evaluate_statements stmts req
     = Response.mk EffectDeny
         "no matching statement found, access denied by default" None.
Proof.
  intros Hne Hall.
  assert (forall eff, eff = EffectAllow \/ eff = EffectDeny ->
            filterStatementsByEffect stmts eff = []) as Hf.
  { intros eff Heff. induction stmts as [|s l IH]; cbn; [done |].
    destruct (String.eqb_spec (Statement.Effect s) eff) as [He | _].
    - destruct (Hall s (list_elem_of_here _ _)) as [Ha Hd].
      destruct Heff; congruence.
    - destruct l as [|s' l']; [done |]. apply IH; [done |].
      intros x Hx. apply Hall. by right. }
  split_and!; [apply Hf; by right | apply Hf; by left |].
  unfold Evaluate_statements. rewrite (Hf EffectDeny), (Hf EffectAllow) by auto.
  by destruct stmts.
Qed.

(** X17. The order of the patterns of a statement is irrelevant: the
    three pattern loops give the same answer on two lists of patterns that
    are permutations of each other. (The order of the conditions is not
    irrelevant, see X13.) *)
Theorem pattern_order_is_irrelevant (l l' : list string) (name : string) :
  l ≡ₚ l' ->
  principalMatches l name = principalMatches l' name
  /\ actionMatches l name = actionMatches l' name
  /\ resourceMatches l name = resourceMatches l' name.
Proof.
  intros Hp. split_and!.
  - by rewrite !principalMatches_existsb, (existsb_perm _ _ _ Hp).
  - by rewrite !actionMatches_existsb, (existsb_perm _ _ _ Hp).
  - by rewrite !resourceMatches_existsb, (existsb_perm _ _ _ Hp).
Qed.

(** X18. [filterStatementsByEffect] keeps, in their order, exactly the
    statements with the given effect; the Deny part and the Allow part of a
    list share no statement and together are no longer than the list. *)
Theorem filter_by_effect_partitions (stmts : list Statement.t) :
  (forall eff,
     filterStatementsByEffect stmts eff `sublist_of` stmts
     /\ forall s, s ∈ filterStatementsByEffect stmts eff <->
                  s ∈ stmts /\ Statement.Effect s = eff)
  /\ (forall s, s ∈ filterStatementsByEffect stmts EffectDeny ->
                s ∉ filterStatementsByEffect stmts EffectAllow)
  /\ length (filterStatementsByEffect stmts EffectDeny)
     + length (filterStatementsByEffect stmts EffectAllow)
     <= length stmts.
Proof.
  assert (forall eff s, s ∈ filterStatementsByEffect stmts eff <->
            s ∈ stmts /\ Statement.Effect s = eff) as Hin.
  { intros eff s. rewrite filterStatementsByEffect_filter.
    by rewrite list_elem_of_In, filter_In, <- list_elem_of_In, String.eqb_eq. }
  split_and!.
  - intros eff. split; [| apply Hin]. clear Hin.
    induction stmts as [|s l IH]; cbn; [done |].
    destruct (String.eqb _ eff); [by apply sublist_skip | by apply sublist_cons].
  - intros s Hd Ha. apply Hin in Hd as [_ Hd], Ha as [_ Ha].
    rewrite Hd in Ha. done.
  - clear Hin. induction stmts as [|s l IH]; cbn; [done |].
    destruct (String.eqb_spec (Statement.Effect s) EffectDeny) as [He | _].
    + rewrite He. cbn. lia.
    + destruct (String.eqb _ EffectAllow); cbn; lia.
Qed.

End EvaluatorProperties.

(** ** The Expanding Evaluator and the resolver *)

Section ExpansionProperties.
Context `{GoLibs}.

Lemma withPrincipal_same (req : Request.t) :
  withPrincipal req (Request.Principal req) = req.
Proof. by destruct req. Qed.

(** What [ExpandingEvaluator.Evaluate] returns, by cases. *)
Lemma Expanding_Evaluate_cases (e : ExpandingEvaluator) (req : Request.t) :
  (exists ps err,
     resolver e (Request.Principal req) = (ps, Some err)
     /\ Expanding_Evaluate e req
        = (Response.mk EffectDeny ("failed to resolve principals: " +:+ err)
             None, None))
  \/ (exists pre p post r err,
        resolver e (Request.Principal req) = (pre ++ p :: post, None)
        /\ (forall q, q ∈ pre ->
              snd (baseEvaluator e (withPrincipal req q)) = None)
        /\ baseEvaluator e (withPrincipal req p) = (r, Some err)
        /\ Expanding_Evaluate e req = (evaluationErrorResponse p err, None))
  \/ (exists ps,
        resolver e (Request.Principal req) = (ps, None)
        /\ (forall p, p ∈ ps ->
              snd (baseEvaluator e (withPrincipal req p)) = None)
        /\ Expanding_Evaluate e req
           = (match find (fun p => explicitDenyb
                                     (baseEvaluator e (withPrincipal req p))) ps with
              | Some p => expansionDenied p
              | None =>
                  match find (fun p => explicitAllowb
                                         (baseEvaluator e (withPrincipal req p))) ps with
                  | Some p => expansionAllowed p
                  | None => expansionDefault
                  end
              end, None)).
Proof.
  unfold Expanding_Evaluate.
  destruct (resolver e (Request.Principal req)) as [ps [err|]] eqn:Hr.
  { left. exists ps, err. by rewrite (Expanding_run_unresolved e req ps err Hr). }
  right.
  destruct (calls_succeed_or_abort e req ps)
    as [Hok | (pre & p & post & r & err & -> & Hpre & Hp)].
  - right. exists ps. rewrite (Expanding_run_complete e req ps Hr Hok).
    by rewrite Expanding_decide_after.
  - left. exists pre, p, post, r, err.
    by rewrite (Expanding_run_abort e req pre post p r err Hr Hpre Hp).
Qed.

(** X19. The Expanding Evaluator answers Allow exactly when the resolution
    and every call of the wrapped evaluator succeeded, no resolved
    principal got an explicit Deny and some resolved principal got an
    explicit Allow. In particular an Allow of the wrapped evaluator that
    carries no Decider is not honoured. *)
Theorem expansion_allow_iff (e : ExpandingEvaluator) (req : Request.t) :
  Response.Effect (fst (Expanding_Evaluate e req)) = EffectAllow <->
  exists ps,
    resolver e (Request.Principal req) = (ps, None)
    /\ (forall p, p ∈ ps ->
          snd (baseEvaluator e (withPrincipal req p)) = None
          /\ explicitDenyb (baseEvaluator e (withPrincipal req p)) = false)
    /\ exists p,
         p ∈ ps /\ explicitAllowb (baseEvaluator e (withPrincipal req p)) = true.
Proof.
  destruct (Expanding_Evaluate_cases e req)
    as [(ps & err & Hr & ->) | [(pre & p & post & r & err & Hr & Hpre & Hp & ->)
                               | (ps & Hr & Hok & ->)]]; cbn [fst].
  - split; [done |]. intros (ps' & Hr' & _). rewrite Hr in Hr'. done.
  - split; [done |]. intros (ps' & Hr' & Hall & _). rewrite Hr in Hr'.
    injection Hr' as <-. destruct (Hall p) as [Hnil _].
    { apply elem_of_app. right. left. }
    by rewrite Hp in Hnil.
  - destruct (find (fun p => explicitDenyb _) ps) as [d|] eqn:Hd.
    { split; [done |]. intros (ps' & Hr' & Hall & _). rewrite Hr in Hr'.
      injection Hr' as <-. apply find_some in Hd as [Hin Hd].
      apply list_elem_of_In in Hin. destruct (Hall d Hin) as [_ Hnd].
      by rewrite Hd in Hnd. }
    destruct (find (fun p => explicitAllowb _) ps) as [a|] eqn:Ha.
    { split; [intros _ | done]. exists ps. split_and!; [done | |].
      - intros p Hp. split; [by apply Hok |].
        rewrite find_none_iff in Hd. by apply Hd.
      - apply find_some in Ha as [Hin Ha]. exists a.
        split; [by apply list_elem_of_In | done]. }
    split; [done |]. intros (ps' & Hr' & _ & a & Hin & Ha').
    rewrite Hr in Hr'. injection Hr' as <-.
    rewrite find_none_iff in Ha. by rewrite (Ha a Hin) in Ha'.
Qed.

(** X20. Every response of the Expanding Evaluator is a verdict: the error
    is nil and exactly one of [Allowed] and [Denied] holds. For the
    Decision Evaluator exactly one of them holds when the error is nil, and
    neither holds for the response that comes with an error. *)
Theorem responses_allowed_or_denied :
  (forall (e : ExpandingEvaluator) (req : Request.t),
     snd (Expanding_Evaluate e req) = None
     /\ Response_Allowed (fst (Expanding_Evaluate e req))
        = negb (Response_Denied (fst (Expanding_Evaluate e req))))
  /\ (forall (storage : Storage) (req : Request.t),
        match snd (Evaluate (NewEvaluator storage) req) with
        | None =>
            Response_Allowed (fst (Evaluate (NewEvaluator storage) req))
            = negb (Response_Denied (fst (Evaluate (NewEvaluator storage) req)))
        | Some _ =>
            Response_Allowed (fst (Evaluate (NewEvaluator storage) req)) = false
            /\ Response_Denied (fst (Evaluate (NewEvaluator storage) req)) = false
        end).
Proof.
  split.
  - intros e req. split; [apply Expanding_error_nil |].
    destruct (Expanding_Evaluate_cases e req)
      as [(ps & err & _ & ->) | [(pre & p & post & r & err & _ & _ & _ & ->)
                                | (ps & _ & _ & ->)]]; cbn [fst]; try done.
    destruct (find (fun p => explicitDenyb _) ps); [done |].
    by destruct (find (fun p => explicitAllowb _) ps).
  - intros storage req.
    destruct (storage (Request.Principal req)) as [stmts [err|]] eqn:Hst.
    { by rewrite (Evaluate_failed _ _ _ _ Hst). }
    rewrite (Evaluate_ok _ _ _ Hst). cbn [fst snd].
    rewrite Evaluate_statements_find. destruct stmts as [|s0 l]; [done |].
    destruct (find (denyDecidesb req) (s0 :: l)) as [d|].
    { unfold Response_Allowed, Response_Denied.
      by destruct (denyOutcome_Effect req d) as [-> _]. }
    by destruct (find (allowDecidesb req) (s0 :: l)).
Qed.

(** X21. A Decider of the Expanding Evaluator is never the ID of a
    statement: it is [principal_expansion:] followed by a resolved
    principal for which the wrapped evaluator returned, without error, a
    response with a Decider and with the effect of the merged response. *)
Theorem expansion_decider_names_principal (e : ExpandingEvaluator)
  (req : Request.t) (d : string) :
  Response.Decider (fst (Expanding_Evaluate e req)) = Some d ->
  exists ps p,
    resolver e (Request.Principal req) = (ps, None)
    /\ p ∈ ps
    /\ d = "principal_expansion:" +:+ p
    /\ snd (baseEvaluator e (withPrincipal req p)) = None
    /\ is_Some (Response.Decider (fst (baseEvaluator e (withPrincipal req p))))
    /\ Response.Effect (fst (baseEvaluator e (withPrincipal req p)))
       = Response.Effect (fst (Expanding_Evaluate e req)).
Proof.
  assert (forall r : Response.t * option error, forall eff : Effect,
            isNil (snd r) && String.eqb (Response.Effect (fst r)) eff
            && negb (isNil (Response.Decider (fst r))) = true ->
            snd r = None /\ is_Some (Response.Decider (fst r))
            /\ Response.Effect (fst r) = eff) as Hexp.
  { intros [r [err|]] eff; cbn; [done |].
    destruct (String.eqb_spec (Response.Effect r) eff); [| done].
    destruct (Response.Decider r); cbn; [eauto | done]. }
  destruct (Expanding_Evaluate_cases e req)
    as [(ps & err & _ & ->) | [(pre & p & post & r & err & _ & _ & _ & ->)
                              | (ps & Hr & _ & ->)]]; cbn [fst]; try done.
  destruct (find (fun p => explicitDenyb _) ps) as [p|] eqn:Hd.
  { intros [= <-]. apply find_some in Hd as [Hin Hd].
    apply Hexp in Hd as (? & ? & ?). exists ps, p.
    split_and!; try done. by apply list_elem_of_In. }
  destruct (find (fun p => explicitAllowb _) ps) as [p|] eqn:Ha; [| done].
  intros [= <-]. apply find_some in Ha as [Hin Ha].
  apply Hexp in Ha as (? & ? & ?). exists ps, p.
  split_and!; try done. by apply list_elem_of_In.
Qed.

(** X22. [ResolvePrincipals] of the in-memory resolver never fails and
    returns the given principal first. The roles that follow are those
    stored for the principal, as stored (a role is not expanded in turn),
    and there are none unless the principal starts with [users/] and has a
    mapping. *)
Theorem resolve_principals_shape (r : inMemoryPrincipalResolver)
  (principal : Principal) :
  snd (ResolvePrincipals r principal) = None
  /\ exists roles,
       fst (ResolvePrincipals r principal) = principal :: roles
       /\ (String.prefix "users/" principal = false -> roles = [])
       /\ (roleMappings r !! principal = None -> roles = [])
       /\ (String.prefix "users/" principal = true ->
           forall stored, roleMappings r !! principal = Some stored ->
                          roles = stored).
Proof.
  unfold ResolvePrincipals. split; [done |]. cbn [fst].
  destruct (String.prefix "users/" principal).
  - destruct (roleMappings r !! principal) as [stored|] eqn:Hm.
    + exists stored. split_and!; try done. by intros _ ? [= ->].
    + exists []. by split_and!.
  - exists []. by split_and!.
Qed.

(** X23. After [AddRoleMapping] the user resolves to itself followed by the
    given roles when its name starts with [users/], and to itself alone
    otherwise (the mapping is stored but never used); every other
    principal resolves as before; a second mapping for the same user
    replaces the first. *)
Theorem add_role_mapping (r : inMemoryPrincipalResolver)
  (userPrincipal : Principal) (roles : list Principal) :
  ResolvePrincipals (AddRoleMapping r userPrincipal roles) userPrincipal
  = (if String.prefix "users/" userPrincipal then userPrincipal :: roles
     else [userPrincipal], None)
  /\ (forall p, p <> userPrincipal ->
        ResolvePrincipals (AddRoleMapping r userPrincipal roles) p
        = ResolvePrincipals r p)
  /\ (forall old,
        AddRoleMapping (AddRoleMapping r userPrincipal old) userPrincipal roles
        = AddRoleMapping r userPrincipal roles).
Proof.
  unfold ResolvePrincipals, AddRoleMapping. cbn. split_and!.
  - rewrite lookup_insert_eq. by destruct (String.prefix _ _).
  - intros p Hp. by rewrite lookup_insert_ne.
  - intros old. f_equal. apply insert_insert_eq.
Qed.

(** X24. With the in-memory resolver, a request whose principal does not
    start with [users/], or has no role mapping, is evaluated exactly once,
    as it is; the merged result depends only on the outcome of that call. *)
Theorem expansion_of_unmapped_principal (r : inMemoryPrincipalResolver)
  (base : Evaluator) (req : Request.t) :
  String.prefix "users/" (Request.Principal req) = false
  \/ roleMappings r !! Request.Principal req = None ->
  Expanding_calls (NewExpandingEvaluator base (ResolvePrincipals r)) req = [req]
  /\ Expanding_Evaluate (NewExpandingEvaluator base (ResolvePrincipals r)) req
     = (match base req with
        | (_, Some err) => evaluationErrorResponse (Request.Principal req) err
        | (resp, None) =>
            if explicitDenyb (resp, None)
            then expansionDenied (Request.Principal req)
            else if explicitAllowb (resp, None)
                 then expansionAllowed (Request.Principal req)
                 else expansionDefault
        end, None).
Proof.
  intros Hun.
  assert (ResolvePrincipals r (Request.Principal req)
          = ([Request.Principal req], None)) as Hr.
  { unfold ResolvePrincipals. destruct Hun as [-> | ->]; [done |].
    by destruct (String.prefix _ _). }
  unfold Expanding_calls, Expanding_Evaluate, Expanding_run. cbn [resolver].
  rewrite Hr. cbn [Expanding_loop baseEvaluator].
  rewrite withPrincipal_same.
  destruct (base req) as [resp [err|]]; [done |]. cbn [fst snd].
  split; [done |]. unfold Expanding_decide, Expanding_record, expansion_init.
  cbn [denyingPrincipal allowingPrincipal isNil]. unfold explicitDenyb, explicitAllowb.
  cbn [fst snd isNil andb]. rewrite !andb_true_r.
  destruct (String.eqb _ EffectDeny && _); [done |].
  by destruct (String.eqb _ EffectAllow && _).
Qed.

End ExpansionProperties.

(** ** Request builders, the action catalog and the remote authorizer *)

Section BuilderProperties.

(** X25. The three principal builders are injective and their results are
    pairwise different, so a user, a role and a service never share a
    principal. Only a principal built by [WithUserPrincipal] is expanded by
    the in-memory resolver: one built by [WithRolePrincipal] or
    [WithServicePrincipal] resolves to itself, whatever the mappings. *)
Theorem principal_builders (r : Request.t) :
  (forall a b,
     Request.Principal (WithUserPrincipal r a)
     = Request.Principal (WithUserPrincipal r b) -> a = b)
  /\ (forall a b,
        Request.Principal (WithRolePrincipal r a)
        = Request.Principal (WithRolePrincipal r b) -> a = b)
  /\ (forall a b,
        Request.Principal (WithServicePrincipal r a)
        = Request.Principal (WithServicePrincipal r b) -> a = b)
  /\ (forall a b,
        Request.Principal (WithUserPrincipal r a)
        <> Request.Principal (WithRolePrincipal r b)
        /\ Request.Principal (WithUserPrincipal r a)
           <> Request.Principal (WithServicePrincipal r b)
        /\ Request.Principal (WithRolePrincipal r a)
           <> Request.Principal (WithServicePrincipal r b))
  /\ (forall (res : inMemoryPrincipalResolver) id,
        ResolvePrincipals res (Request.Principal (WithRolePrincipal r id))
        = (["roles/" +:+ id], None)
        /\ ResolvePrincipals res (Request.Principal (WithServicePrincipal r id))
           = (["services/" +:+ id], None))
  /\ (forall (res : inMemoryPrincipalResolver) id roles,
        ResolvePrincipals (AddRoleMapping res ("users/" +:+ id) roles)
          (Request.Principal (WithUserPrincipal r id))
        = (("users/" +:+ id) :: roles, None)).
Proof.
  split_and!.
  - intros a b. cbn. intros [= Heq]. exact Heq.
  - intros a b. cbn. intros [= Heq]. exact Heq.
  - intros a b. cbn. intros [= Heq]. exact Heq.
  - intros a b. cbn. split_and!; intros Heq; discriminate Heq.
  - intros res id. split; unfold ResolvePrincipals; reflexivity.
  - intros res id roles. unfold ResolvePrincipals, AddRoleMapping. cbn.
    rewrite lookup_insert_eq. by destruct id.
Qed.


(** X27. [NewAction] panics exactly when the identifier is empty.
    Otherwise the action has the given identifier and description, a name
    that is never empty (the given name, or the identifier when no name is
    given), and renders as its identifier. *)
Theorem new_action (id : ActionID) (name description : string) :
  (NewAction id name description = inl "action ID cannot be empty" <-> id = "")
  /\ (id <> "" ->
      exists a,
        NewAction id name description = inr a
        /\ Action.ID a = id
        /\ Action.Description a = description
        /\ Action.Name a <> ""
        /\ (name <> "" -> Action.Name a = name)
        /\ (name = "" -> Action.Name a = id)
        /\ Action_String a = id).
Proof.
  unfold NewAction. destruct (String.eqb_spec id "") as [-> | Hid].
  - split; [done | by intros []].
  - split; [split; [done | by intros ->] |]. intros _.
    eexists. split; [reflexivity |]. cbn.
    destruct (String.eqb_spec name "") as [-> | Hn]; by split_and!.
Qed.

(** X28. The initialisation of the action catalog does not panic; the
    catalog lists, in the same order, the identifiers that the earlier
    version declared as constants; the identifiers are pairwise different,
    all start with [iam:], and no action has an empty name. [AllActions]
    returns the list of [iam_actions], unchanged. *)
Theorem action_catalog :
  exists l,
    iam_actions.All = inr l
    /\ map Action.ID l = iam_actions_v1.All
    /\ map Action_String l = iam_actions_v1.All
    /\ AllActions_v1 = iam_actions_v1.All
    /\ NoDup (map Action.ID l)
    /\ Forall (fun a => String.prefix "iam:" (Action.ID a) = true
                        /\ Action.Name a <> "") l.
Proof.
  eexists. split; [reflexivity |]. split_and!; try reflexivity.
  - cbn. repeat (apply NoDup_cons; split; [by set_unfold; intuition discriminate |]).
    constructor.
  - repeat (constructor; [by split |]). constructor.
Qed.

End BuilderProperties.

Section RemoteProperties.
Context `{RemoteWorld}.

(** X29. [Authorize] fails closed: whenever it returns an error the
    response is not an Allow. If the token function failed the response is
    the zero response; in every other failure the effect is Deny and the
    Decider is nil. *)
Theorem authorize_fails_closed (a : remoteAuthorizer) (req : Request.t)
  (err : error) :
  snd (Authorize a req) = Some err ->
  Response_Allowed (fst (Authorize a req)) = false
  /\ Response.Decider (fst (Authorize a req)) = None
  /\ (is_Some (snd (bearerTokenFn a tt)) ->
      Authorize a req = (Response_zero, snd (bearerTokenFn a tt)))
  /\ (snd (bearerTokenFn a tt) = None ->
      Response.Effect (fst (Authorize a req)) = EffectDeny).
Proof.
  unfold Authorize.
  destruct (bearerTokenFn a tt) as [token [e|]]; cbn [fst snd].
  { intros _. split_and!; try done. }
  destruct (json_Marshal req) as [e|body]; cbn [fst snd].
  { intros _. split_and!; try done; by intros [? ?]. }
  destruct (http_NewRequest "POST" (endpoint a) body) as [e|httpReq]; cbn [fst snd].
  { intros _. split_and!; try done; by intros [? ?]. }
  destruct (client_Do _) as [e|resp]; cbn [fst snd].
  { intros _. split_and!; try done; by intros [? ?]. }
  destruct (negb (HttpResponse.StatusCode resp =? StatusOK)%Z).
  - destruct (json_Decode_RawMessage _) as [e|raw]; cbn [fst snd];
      intros _; split_and!; try done; by intros [? ?].
  - destruct (json_Decode_Response _) as [e|response]; cbn [fst snd]; [| done].
    intros _. split_and!; try done; by intros [? ?].
Qed.

(** X30. [Authorize] returns a nil error exactly when the token function,
    the encoding of the request, the construction of the HTTP request and
    the call succeed, the call being made with the header [Authorization]
    set to [Bearer] and the token, the status code is 200 and the body
    decodes to a response; the result is then that response, unchanged. *)
Theorem authorize_success_iff (a : remoteAuthorizer) (req : Request.t) :
  snd (Authorize a req) = None <->
  exists token body httpReq resp response,
    bearerTokenFn a tt = (token, None)
    /\ json_Marshal req = inr body
    /\ http_NewRequest "POST" (endpoint a) body = inr httpReq
    /\ client_Do (Header_Set httpReq "Authorization" ("Bearer " +:+ token))
       = inr resp
    /\ HttpResponse.StatusCode resp = 200%Z
    /\ json_Decode_Response (HttpResponse.Body resp) = inr response
    /\ Authorize a req = (response, None).
Proof.
  unfold Authorize. split.
  - destruct (bearerTokenFn a tt) as [token [e|]]; cbn [fst snd]; [done |].
    destruct (json_Marshal req) as [e|body]; cbn [fst snd]; [done |].
    destruct (http_NewRequest "POST" (endpoint a) body) as [e|httpReq] eqn:Hn;
      cbn [fst snd]; [done |].
    destruct (client_Do _) as [e|resp] eqn:Hdo; cbn [fst snd]; [done |].
    destruct (HttpResponse.StatusCode resp =? StatusOK)%Z eqn:Hst; cbn [negb].
    + destruct (json_Decode_Response _) as [e|response] eqn:Hdec;
        cbn [fst snd]; [done |].
      intros _. exists token, body, httpReq, resp, response.
      split_and!; try done. by apply Z.eqb_eq in Hst.
    + by destruct (json_Decode_RawMessage _).
  - intros (token & body & httpReq & resp & response
            & -> & -> & -> & -> & Hst & -> & _).
    rewrite Hst. done.
Qed.

End RemoteProperties.

(** ** Closed examples for the further properties *)

Section MoreExamples.
Import Scenario More.
#[local] Existing Instance Model.libs.
#[local] Existing Instance RemoteModel.world.

Lemma invoiceStore_wellKeyed : wellKeyed invoiceStore.
Proof. apply wellKeyed_save, wellKeyed_save, wellKeyed_new. Qed.

(** The remote world: the right token is allowed, a wrong one is refused
    with status 401, an endpoint that cannot be reached gives a denial and
    an error (as [TestRemoteAuthorizer] expects). *)
Example remote_examples :
  Authorize
    (NewBetandbeatRemoteAuthorizer "https://auth.example/authorize"
       (fun _ => ("secret", None))) reqInvoice
  = (Response.mk EffectAllow "allowed by the remote engine" (Some "S1"), None)
  /\ Authorize
       (NewBetandbeatRemoteAuthorizer "https://auth.example/authorize"
          (fun _ => ("guess", None))) reqInvoice
     = (Response.mk EffectDeny
          "authorization failed with status 401 Unauthorized" None,
        Some "authorization failed with status 401 Unauthorized")
  /\ Authorize RemoteModel.unreachable reqInvoice
     = (Response.mk EffectDeny
          "failed to make authorization request: connection refused" None,
        Some "connection refused").
Proof. by vm_compute. Qed.

(** X4, witness: the store of [TestExpandingEvaluator]; after the deletion
    of the statement of the analysts, and after a second save of it. *)
Lemma list_after_update_witness :
  wellKeyed invoiceStore
  /\ rangeOrder (fst (DeleteStatement invoiceStore "deny-analyst-specific"))
       [allowModerator]
  /\ rangeOrder (fst (SaveStatement invoiceStore denyAnalyst))
       [denyAnalyst; allowModerator]
  /\ (forall x,
        x ∈ fst (ListStatementsByPrincipal [allowModerator] "roles/moderator") ->
        Statement.ID x <> "deny-analyst-specific")
  /\ (forall x,
        x ∈ fst (ListStatementsByPrincipal [denyAnalyst; allowModerator]
                   "roles/analyst") ->
        Statement.ID x = Statement.ID denyAnalyst -> x = denyAnalyst).
Proof.
  assert (rangeOrder (fst (DeleteStatement invoiceStore "deny-analyst-specific"))
            [allowModerator]) as Hdel.
  { unfold rangeOrder. vm_compute. reflexivity. }
  assert (rangeOrder (fst (SaveStatement invoiceStore denyAnalyst))
            [denyAnalyst; allowModerator]) as Hsave.
  { unfold rangeOrder. vm_compute. apply perm_swap. }
  split_and!; [exact invoiceStore_wellKeyed | exact Hdel | exact Hsave | |].
  - exact (proj1 (list_after_update (H := Model.libs) invoiceStore
                    [allowModerator] "roles/moderator" invoiceStore_wellKeyed)
             "deny-analyst-specific" Hdel).
  - exact (proj2 (list_after_update (H := Model.libs) invoiceStore
                    [denyAnalyst; allowModerator] "roles/analyst"
                    invoiceStore_wellKeyed)
             denyAnalyst Hsave).
Defined.

(** X5, witness: the same store. *)
Lemma list_distinct_ids_witness :
  (wellKeyed invoiceStore
   /\ rangeOrder invoiceStore [denyAnalyst; allowModerator])
  /\ NoDup (map Statement.ID
              (fst (ListStatementsByPrincipal [denyAnalyst; allowModerator]
                      "roles/moderator"))).
Proof.
  split; [split; [exact invoiceStore_wellKeyed | exact invoiceStore_order] |].
  exact (list_distinct_ids (H := Model.libs) invoiceStore
           [denyAnalyst; allowModerator] "roles/moderator"
           invoiceStore_wellKeyed invoiceStore_order).
Defined.

(** X6, witness: a store with a statement whose first pattern is
    malformed; the listing fails for every principal. *)
Lemma list_error_iff_witness :
  rangeOrder malformedStore [malformedFirst]
  /\ ListStatementsByPrincipal [malformedFirst] "user:1"
     = ([], Some Model.ErrBadPattern)
  /\ exists id stmt pre pat post b err,
       statements malformedStore !! id = Some stmt
       /\ Statement.Principals stmt = pre ++ pat :: post
       /\ (forall q, q ∈ pre -> doublestar_Match q "user:1" = (false, None))
       /\ doublestar_Match pat "user:1" = (b, Some err).
Proof.
  assert (rangeOrder malformedStore [malformedFirst]) as Ho.
  { apply rangeOrder_save; [vm_compute; reflexivity | apply rangeOrder_empty]. }
  split_and!; [exact Ho | vm_compute; reflexivity |].
  apply (proj1 (proj1 (list_error_iff (H := Model.libs) malformedStore
                         [malformedFirst] "user:1" Ho))).
  vm_compute. by eexists.
Defined.

(** X7, witness: the denial of the analysts leads back to the stored
    statement. *)
Lemma decider_is_stored_witness :
  (wellKeyed invoiceStore
   /\ rangeOrder invoiceStore [denyAnalyst; allowModerator]
   /\ Response.Decider (fst (invoiceBase reqAnalyst))
      = Some "deny-analyst-specific")
  /\ exists stmt,
       GetStatement invoiceStore "deny-analyst-specific" = (Some stmt, None)
       /\ decides stmt reqAnalyst
       /\ Response.Effect (fst (invoiceBase reqAnalyst)) = Statement.Effect stmt.
Proof.
  assert (Response.Decider (fst (invoiceBase reqAnalyst))
          = Some "deny-analyst-specific") as Hd by (vm_compute; reflexivity).
  split; [split_and!; [exact invoiceStore_wellKeyed | exact invoiceStore_order
                      | exact Hd] |].
  exact (decider_is_stored (H := Model.libs) invoiceStore
           [denyAnalyst; allowModerator] reqAnalyst "deny-analyst-specific"
           invoiceStore_wellKeyed invoiceStore_order Hd).
Defined.

(** X8, witness: the statement of the moderators, returned for their
    role. *)
Lemma stored_statements_pass_principal_check_witness :
  ((forall name, fst (doublestar_Match "**" name) = true)
   /\ allowModerator
      ∈ fst (ListStatementsByPrincipal [denyAnalyst; allowModerator]
               "roles/moderator"))
  /\ principalMatches (Statement.Principals allowModerator) "roles/moderator"
     = true.
Proof.
  assert (allowModerator
          ∈ fst (ListStatementsByPrincipal [denyAnalyst; allowModerator]
                   "roles/moderator")) as Hin.
  { vm_compute. apply list_elem_of_here. }
  split; [split; [exact Model_double_star_matches_all | exact Hin] |].
  exact (stored_statements_pass_principal_check (H := Model.libs)
           [denyAnalyst; allowModerator] "roles/moderator" allowModerator
           Model_double_star_matches_all Hin).
Defined.

(** X10, witness: the Allow statement with the broken condition, after
    a Deny statement. *)
Lemma evaluate_ignores_idle_statement_witness :
  ~ decides allowBadCond req1
  /\ Evaluate_statements ([denyRead] ++ allowBadCond :: []) req1
     = Evaluate_statements [denyRead] req1.
Proof.
  assert (~ decides allowBadCond req1) as Hn.
  { apply not_decides_iff. split; vm_compute; reflexivity. }
  split; [exact Hn |].
  exact (evaluate_ignores_idle_statement (H := Model.libs) [denyRead] []
           allowBadCond req1 Hn).
Defined.

(** X11, witness: a Deny statement without actions and with a broken
    condition. *)
Lemma empty_pattern_list_never_matches_witness :
  (Statement.Principals denyNoActions = []
   \/ Statement.Actions denyNoActions = []
   \/ Statement.Resources denyNoActions = [])
  /\ statementMatches denyNoActions req1 = (false, None)
  /\ ~ decides denyNoActions req1.
Proof.
  assert (Statement.Principals denyNoActions = []
          \/ Statement.Actions denyNoActions = []
          \/ Statement.Resources denyNoActions = []) as He
    by (right; left; reflexivity).
  split; [exact He |].
  exact (empty_pattern_list_never_matches (H := Model.libs) denyNoActions
           req1 He).
Defined.

(** X12, witness: the Deny statement with the broken condition. *)
Lemma statementMatches_error_is_condition_error_witness :
  snd (statementMatches denyBadCond req1)
  = Some ("failed to evaluate condition " +:+ strconv_Quote "BadCond"
          +:+ ": unexpected token")
  /\ structurallyMatches denyBadCond req1 = true
  /\ fst (statementMatches denyBadCond req1) = false.
Proof.
  assert (snd (statementMatches denyBadCond req1)
          = Some ("failed to evaluate condition " +:+ strconv_Quote "BadCond"
                  +:+ ": unexpected token")) as He
    by (vm_compute; reflexivity).
  split; [exact He |].
  destruct (statementMatches_error_is_condition_error (H := Model.libs)
              denyBadCond req1 _ He) as (Hs & Hf & _).
  by split.
Defined.

(** X14, witness: a Deny statement whose first condition is the number
    one and whose second condition is broken. *)
Lemma non_boolean_condition_is_unmet_witness :
  (expr_Compile (Condition.Expression notBool) = inr (Model.Const AnyOther)
   /\ expr_Run (Model.Const AnyOther) req1 = inr AnyOther
   /\ Statement.Conditions denyNotBool = [] ++ notBool :: [badCond])
  /\ Condition_Evaluate notBool req1 = (false, None)
  /\ statementMatches denyNotBool req1 = (false, None)
  /\ ~ decides denyNotBool req1.
Proof.
  split; [by split_and! |].
  refine (non_boolean_condition_is_unmet (H := Model.libs) denyNotBool req1
            [] [badCond] notBool (Model.Const AnyOther)
            eq_refl eq_refl eq_refl _).
  intros c' Hc'. by apply elem_of_nil in Hc'.
Defined.

(** X15, witness: a denial that survives the addition of two Allow
    statements. *)
Lemma deny_survives_more_statements_witness :
  ((exists d, d ∈ [denyRead] /\ denyDecides d req1)
   /\ forall x, x ∈ [denyRead] -> x ∈ [allowRead; denyRead; allowModerator])
  /\ Response.Effect
       (Evaluate_statements [allowRead; denyRead; allowModerator] req1)
     = EffectDeny.
Proof.
  assert (exists d, d ∈ [denyRead] /\ denyDecides d req1) as Hd.
  { exists denyRead. split; [apply list_elem_of_here |].
    apply (denyDecidesb_spec (H := Model.libs)). vm_compute. reflexivity. }
  assert (forall x, x ∈ [denyRead] ->
                    x ∈ [allowRead; denyRead; allowModerator]) as Hsub.
  { intros x Hx. for_each Hx. elem_here. }
  split; [by split |].
  exact (proj1 (deny_survives_more_statements (H := Model.libs) [denyRead]
                  [allowRead; denyRead; allowModerator] req1 Hd Hsub)).
Defined.

(** X16, witness: an effect written with a capital letter. *)
Lemma unknown_effect_is_ignored_witness :
  ([capitalAllow] <> []
   /\ forall s, s ∈ [capitalAllow] ->
        Statement.Effect s <> EffectAllow /\ Statement.Effect s <> EffectDeny)
  /\ Evaluate_statements [capitalAllow] req1
     = Response.mk EffectDeny
         "no matching statement found, access denied by default" None.
Proof.
  assert ([capitalAllow] <> []) as Hne by discriminate.
  assert (forall s, s ∈ [capitalAllow] ->
            Statement.Effect s <> EffectAllow
            /\ Statement.Effect s <> EffectDeny) as Hall.
  { intros s Hs. for_each Hs. split; discriminate. }
  split; [by split |].
  exact (proj2 (proj2 (unknown_effect_is_ignored (H := Model.libs)
                         [capitalAllow] req1 Hne Hall))).
Defined.

(** X17, witness: two patterns in both orders. *)
Lemma pattern_order_is_irrelevant_witness :
  ["user:*"; "admin:*"] ≡ₚ ["admin:*"; "user:*"]
  /\ principalMatches ["user:*"; "admin:*"] "admin:7"
     = principalMatches ["admin:*"; "user:*"] "admin:7".
Proof.
  split; [apply perm_swap |].
  exact (proj1 (pattern_order_is_irrelevant (H := Model.libs)
                  ["user:*"; "admin:*"] ["admin:*"; "user:*"] "admin:7"
                  (perm_swap _ _ _))).
Defined.

(** X21, witness: [TestExpandingEvaluator]. *)
Lemma expansion_decider_names_principal_witness :
  Response.Decider (fst (Expanding_Evaluate invoiceEvaluator reqInvoice))
  = Some "principal_expansion:roles/analyst"
  /\ exists ps p,
       resolver invoiceEvaluator (Request.Principal reqInvoice) = (ps, None)
       /\ p ∈ ps
       /\ "principal_expansion:roles/analyst" = "principal_expansion:" +:+ p
       /\ snd (baseEvaluator invoiceEvaluator (withPrincipal reqInvoice p)) = None
       /\ is_Some (Response.Decider
                     (fst (baseEvaluator invoiceEvaluator
                             (withPrincipal reqInvoice p))))
       /\ Response.Effect
            (fst (baseEvaluator invoiceEvaluator (withPrincipal reqInvoice p)))
          = Response.Effect (fst (Expanding_Evaluate invoiceEvaluator reqInvoice)).
Proof.
  assert (Response.Decider (fst (Expanding_Evaluate invoiceEvaluator reqInvoice))
          = Some "principal_expansion:roles/analyst") as Hd
    by (vm_compute; reflexivity).
  split; [exact Hd |].
  exact (expansion_decider_names_principal invoiceEvaluator reqInvoice _ Hd).
Defined.

(** X24, witness: a request made for a role. *)
Lemma expansion_of_unmapped_principal_witness :
  (String.prefix "users/" (Request.Principal reqAnalyst) = false
   \/ roleMappings markMapping !! Request.Principal reqAnalyst = None)
  /\ Expanding_calls
       (NewExpandingEvaluator invoiceBase (ResolvePrincipals markMapping))
       reqAnalyst = [reqAnalyst]
  /\ Expanding_Evaluate
       (NewExpandingEvaluator invoiceBase (ResolvePrincipals markMapping))
       reqAnalyst
     = (expansionDenied "roles/analyst", None).
Proof.
  assert (String.prefix "users/" (Request.Principal reqAnalyst) = false
          \/ roleMappings markMapping !! Request.Principal reqAnalyst = None)
    as Hun by (left; reflexivity).
  split; [exact Hun |].
  destruct (expansion_of_unmapped_principal markMapping invoiceBase reqAnalyst
              Hun) as [Hcalls Hres].
  split; [exact Hcalls |]. rewrite Hres. vm_compute. reflexivity.
Defined.

(** X29, witness: an endpoint that cannot be reached. *)
Lemma authorize_fails_closed_witness :
  snd (Authorize RemoteModel.unreachable reqInvoice) = Some "connection refused"
  /\ Response_Allowed (fst (Authorize RemoteModel.unreachable reqInvoice)) = false
  /\ Response.Effect (fst (Authorize RemoteModel.unreachable reqInvoice))
     = EffectDeny.
Proof.
  assert (snd (Authorize RemoteModel.unreachable reqInvoice)
          = Some "connection refused") as He by (vm_compute; reflexivity).
  split; [exact He |].
  destruct (authorize_fails_closed (H := RemoteModel.world)
              RemoteModel.unreachable reqInvoice _ He) as (Ha & _ & _ & Hdeny).
  split; [exact Ha | by apply Hdeny].
Defined.

End MoreExamples.
